(** * SnapMap: the catalogue's data flow, embedded and verified

    The development follows the TypeScript sources:
    - [types.ts]                      the [Restaurant] record ([Module Types]);
    - [services/geminiService.ts]     [restaurantSchema] and [analyzeImage]
                                      ([Module GeminiService]);
    - [App.tsx]                       the [restaurants] state, its two storage
                                      effects and [handleSaveRestaurant]
                                      ([Module App]);
    - [components/RestaurantList.tsx] the country/city grouping
                                      ([Module RestaurantList]);
    - [components/MapVisualization.tsx] the SVG drawn by the D3 effect
                                      ([Module MapVisualization]).

    JavaScript numbers are IEEE 754 doubles and are modelled by Rocq's
    primitive floats; run-time values are the untyped [JS.value]s, since
    nothing in the program checks what [JSON.parse] hands back. *)

From Stdlib Require Import PrimFloat.
From Stdlib Require FloatOps FloatAxioms SpecFloat.
From stdpp Require Import gmap strings list fin_maps.
From stdpp Require Import pretty.

Set Warnings "-inexact-float,-register-all".
Local Open Scope string_scope.

(* ===================================================================== *)
(** * The JavaScript fragment the program runs on                         *)
(* ===================================================================== *)

Module JS.

(** Run-time values.  An object is the list of its own properties in
    creation order (none of the property names this program creates is
    an array index, so the engine's numeric-keys-first rule never
    reorders them). *)
Inductive value : Type :=
| Undefined
| Null
| Bool (b : bool)
| Num (n : float)
| Str (s : string)
| Arr (items : list value)
| Obj (props : list (string * value)).

(** What a [throw] carries. *)
Inductive thrown : Type :=
| Error (message : string)
| TypeError (message : string)
| SyntaxError (message : string)
| Rejection (reason : value).

(** Outcome of evaluating an expression or awaiting a promise. *)
Inductive completion (A : Type) : Type :=
| Normal (a : A)
| Throw (e : thrown).
Arguments Normal {A} a.
Arguments Throw {A} e.

(** Own-property access on a property list. *)
Fixpoint own (props : list (string * value)) (k : string) : option value :=
  match props with
  | [] => None
  | (k', v) :: rest => if String.eqb k' k then Some v else own rest k
  end.

(** [o[k] = v] on an ordinary object: overwrite in place, else append. *)
Fixpoint obj_set (k : string) (v : value) (props : list (string * value))
  : list (string * value) :=
  match props with
  | [] => [(k, v)]
  | (k', v') :: rest =>
      if String.eqb k' k then (k, v) :: rest else (k', v') :: obj_set k v rest
  end.

(** The property names every object literal inherits from
    [Object.prototype] (Annex B accessors included).  All of them are
    truthy and none has a [push] method. *)
Definition Object_prototype_keys : list string :=
  [ "constructor"; "__proto__"; "hasOwnProperty"; "isPrototypeOf";
    "propertyIsEnumerable"; "toLocaleString"; "toString"; "valueOf";
    "__defineGetter__"; "__defineSetter__"; "__lookupGetter__";
    "__lookupSetter__" ].

Definition inherited (k : string) : bool :=
  existsb (String.eqb k) Object_prototype_keys.

(** The member expression [v.k], for a name [k] that no built-in
    prototype defines (the eight names [analyzeImage] reads are such):
    reading from [undefined] or [null] throws, a missing property reads
    as [undefined]. *)
Definition getProp (v : value) (k : string) : completion value :=
  match v with
  | Undefined => Throw (TypeError "Cannot read properties of undefined")
  | Null => Throw (TypeError "Cannot read properties of null")
  | Obj props => Normal (default Undefined (own props k))
  | Bool _ | Num _ | Str _ | Arr _ => Normal Undefined
  end.

Definition keys (props : list (string * value)) : list string := props.*1.

(** The spread [...v] inside an array literal: arrays yield their
    elements and strings their characters; nothing else this program can
    hold is iterable. *)
Definition spread (v : value) : completion (list value) :=
  match v with
  | Arr items => Normal items
  | Str s => Normal (map (fun c => Str (String c EmptyString)) (String.list_ascii_of_string s))
  | Undefined | Null | Bool _ | Num _ | Obj _ => Throw (TypeError "not iterable")
  end.

(** ** Numbers *)

Definition isFinite (n : float) : bool :=
  negb (PrimFloat.is_nan n || PrimFloat.is_infinity n).

(** [ToBoolean] on a number: [0], [-0] and [NaN] are falsy. *)
Definition truthy_number (n : float) : bool :=
  negb (PrimFloat.is_zero n || PrimFloat.is_nan n).

(** ** JSON

    A text is kept by what the JSON grammar makes of it: [JSONText doc]
    is a text the grammar derives, given by its syntax tree (white space
    aside); [PlainText s] is a text [s] the grammar does not derive, the
    empty text among them.  A number literal is kept by the double it
    denotes, so [1e999] is [JsonNumber infinity] and [-0] is
    [JsonNumber (-0)]; no literal denotes [NaN]. *)
Inductive json : Type :=
| JsonNull
| JsonBool (b : bool)
| JsonNumber (n : float)
| JsonString (s : string)
| JsonArray (elements : list json)
| JsonObject (members : list (string * json)).

Inductive text : Type :=
| JSONText (doc : json)
| PlainText (s : string).

(** [ToBoolean] on a string: only the empty string is falsy. *)
Definition truthy_text (t : text) : bool :=
  match t with
  | JSONText _ => true
  | PlainText s => negb (String.eqb s "")
  end.

(** [JSON.parse]: members are defined left to right, a repeated name
    overwrites. *)
Fixpoint revive (j : json) : value :=
  match j with
  | JsonNull => Null
  | JsonBool b => Bool b
  | JsonNumber n => Num n
  | JsonString s => Str s
  | JsonArray elements => Arr (map revive elements)
  | JsonObject members =>
      Obj (fold_left (fun props m => obj_set m.1 (revive m.2) props) members [])
  end.

Definition JSON_parse (t : text) : completion value :=
  match t with
  | JSONText doc => Normal (revive doc)
  | PlainText _ => Throw (SyntaxError "Unexpected token in JSON")
  end.

(** [JSON.stringify] (SerializeJSONProperty): [undefined] has no
    serialization, is dropped from objects and becomes [null] in arrays;
    a number that is not finite becomes [null]; [-0] prints as [0]. *)
Fixpoint serialize (v : value) : option json :=
  match v with
  | Undefined => None
  | Null => Some JsonNull
  | Bool b => Some (JsonBool b)
  | Num n =>
      Some (if isFinite n
            then JsonNumber (if PrimFloat.is_zero n then 0%float else n)
            else JsonNull)
  | Str s => Some (JsonString s)
  | Arr items => Some (JsonArray (map (fun x => default JsonNull (serialize x)) items))
  | Obj props =>
      Some (JsonObject
              (omap (fun p => match serialize p.2 with
                              | Some j => Some (p.1, j)
                              | None => None
                              end) props))
  end.

Definition JSON_stringify (v : value) : option text :=
  JSONText <$> serialize v.

(** [ToString] of a value that is a string or [undefined], as
    [JSON.parse] and [setItem] apply it to their argument. *)
Definition ToString (s : option text) : text :=
  default (PlainText "undefined") s.

(** The numbers JSON text can carry and give back: the finite ones, save
    for negative zero. *)
Definition storable_number (n : float) : bool :=
  isFinite n && negb (PrimFloat.is_zero n && PrimFloat.get_sign n).

End JS.

(* ===================================================================== *)
(** * types.ts                                                            *)
(* ===================================================================== *)

Module Types.

Inductive Country : Type := KR | JP | OTHER.

(** The string each enum member stands for at run time. *)
Definition Country_value (c : Country) : string :=
  match c with
  | KR => "South Korea"
  | JP => "Japan"
  | OTHER => "Other"
  end.

Record Coordinates : Type := mkCoordinates {
  lat : float;
  lng : float
}.

Record Restaurant : Type := mkRestaurant {
  id : string;
  name : string;
  country : Country;
  city : string;
  district : string;
  description : string;
  coordinates : Coordinates;
  tags : list string;
  originalImage : string;
  createdAt : float
}.

(** The run-time object behind a well-typed [Restaurant], with its
    properties in the order [AddPlaceModal] creates them
    ([{ id, ...result, originalImage, createdAt }]). *)
Definition Coordinates_value (c : Coordinates) : JS.value :=
  JS.Obj [ ("lat", JS.Num (lat c)); ("lng", JS.Num (lng c)) ].

Definition Restaurant_value (r : Restaurant) : JS.value :=
  JS.Obj
    [ ("id", JS.Str (id r));
      ("name", JS.Str (name r));
      ("country", JS.Str (Country_value (country r)));
      ("city", JS.Str (city r));
      ("district", JS.Str (district r));
      ("description", JS.Str (description r));
      ("coordinates", Coordinates_value (coordinates r));
      ("tags", JS.Arr (map JS.Str (tags r)));
      ("originalImage", JS.Str (originalImage r));
      ("createdAt", JS.Num (createdAt r)) ].

Definition Restaurants_value (rs : list Restaurant) : JS.value :=
  JS.Arr (map Restaurant_value rs).

(** The records whose numbers JSON text gives back. *)
Definition storable (r : Restaurant) : bool :=
  JS.storable_number (lat (coordinates r))
  && JS.storable_number (lng (coordinates r))
  && JS.storable_number (createdAt r).

(** The JSON text of a storable record. *)
Definition Restaurant_json (r : Restaurant) : JS.json :=
  JS.JsonObject
    [ ("id", JS.JsonString (id r));
      ("name", JS.JsonString (name r));
      ("country", JS.JsonString (Country_value (country r)));
      ("city", JS.JsonString (city r));
      ("district", JS.JsonString (district r));
      ("description", JS.JsonString (description r));
      ("coordinates",
        JS.JsonObject [ ("lat", JS.JsonNumber (lat (coordinates r)));
                     ("lng", JS.JsonNumber (lng (coordinates r))) ]);
      ("tags", JS.JsonArray (map JS.JsonString (tags r)));
      ("originalImage", JS.JsonString (originalImage r));
      ("createdAt", JS.JsonNumber (createdAt r)) ].

End Types.

(* ===================================================================== *)
(** * services/geminiService.ts                                           *)
(* ===================================================================== *)

Module GeminiService.
Import JS.

(** ** The part of the [@google/genai] interface the service uses *)

Inductive Type_ : Type := OBJECT | STRING | NUMBER | ARRAY.

Inductive Schema : Type := mkSchema {
  type : Type_;
  properties : option (list (string * Schema));
  enum : option (list string);
  items : option Schema;
  description : option string;
  required : option (list string)
}.

Record Blob : Type := mkBlob {
  mimeType : string;
  data : string
}.

Inductive Part : Type :=
| inlineData (blob : Blob)
| text (t : string).

Record GenerateContentConfig : Type := mkConfig {
  responseMimeType : string;
  responseSchema : Schema;
  temperature : float
}.

Record GenerateContentParameters : Type := mkParameters {
  model : string;
  contents : list Part;
  config : GenerateContentConfig
}.

(** [response.text] is a string or [undefined]. *)
Record GenerateContentResponse : Type := mkResponse {
  response_text : option JS.text
}.

(** The client [ai]: what awaiting [ai.models.generateContent(params)]
    yields, for every request. *)
Record GoogleGenAI : Type := mkClient {
  generateContent : GenerateContentParameters -> completion GenerateContentResponse
}.

(** ** Computations that talk to the endpoint

    A computation threads the list of requests issued so far and ends in
    a completion. *)
Definition Call (A : Type) : Type :=
  list GenerateContentParameters -> list GenerateContentParameters * completion A.

Definition ret {A} (a : A) : Call A := fun sent => (sent, Normal a).

Definition throw {A} (e : thrown) : Call A := fun sent => (sent, Throw e).

Definition bind {A B} (c : Call A) (k : A -> Call B) : Call B :=
  fun sent =>
    match c sent with
    | (sent', Normal a) => k a sent'
    | (sent', Throw e) => (sent', Throw e)
    end.

Definition try_catch {A} (body : Call A) (handler : thrown -> Call A) : Call A :=
  fun sent =>
    match body sent with
    | (sent', Normal a) => (sent', Normal a)
    | (sent', Throw e) => handler e sent'
    end.

Definition lift {A} (c : completion A) : Call A := fun sent => (sent, c).

(** [await ai.models.generateContent(params)]: one outbound request. *)
Definition await_generateContent (ai : GoogleGenAI) (params : GenerateContentParameters)
  : Call GenerateContentResponse :=
  fun sent => ((sent ++ [params])%list, generateContent ai params).

Notation "'let!' x ':=' c 'in' k" := (bind c (fun x => k))
  (at level 10, x name, c at level 100, k at level 200, only parsing).

(** ** The service *)

Definition string_schema (d : string) : Schema :=
  mkSchema STRING None None None (Some d) None.

Definition number_schema (d : string) : Schema :=
  mkSchema NUMBER None None None (Some d) None.

Definition restaurantSchema : Schema :=
  mkSchema OBJECT
    (Some
       [ ("name", string_schema "Name of the restaurant or cafe.");
         ("country",
           mkSchema STRING None (Some ["South Korea"; "Japan"; "Other"]) None
             (Some "The country where the place is located.") None);
         ("city", string_schema "The major city (e.g., Seoul, Tokyo, Osaka, Busan).");
         ("district",
           string_schema "The specific district or ward (e.g., Gangnam-gu, Shinjuku).");
         ("description",
           string_schema
             "A short 1-sentence summary of what makes this place good based on the image/text.");
         ("lat", number_schema "Estimated latitude based on the city/district.");
         ("lng", number_schema "Estimated longitude based on the city/district.");
         ("tags",
           mkSchema ARRAY None None
             (Some (mkSchema STRING None None None None None))
             (Some "List of 3 related keywords (e.g., 'Sushi', 'Spicy', 'View').") None) ])
    None None None
    (Some ["name"; "country"; "city"; "district"; "lat"; "lng"; "description"; "tags"]).

Definition prompt : string :=
"Analyze this screenshot from a social media video (Shorts/Reels). 
            Identify the restaurant or food spot. 
            Deduce the location (Focus on South Korea or Japan). 
            If the text is in Korean or Japanese, translate the location names to English but keep the Name in original script if it's iconic, or English if provided.
            Estimate the Latitude and Longitude for the district/city center so I can place it on a map.".

Definition request_config : GenerateContentConfig :=
  {| responseMimeType := "application/json";
     responseSchema := restaurantSchema;
     temperature := 0.4%float |}.

Definition request (modelId base64Image : string) : GenerateContentParameters :=
  {| model := modelId;
     contents :=
       [ inlineData {| mimeType := "image/jpeg"; data := base64Image |};
         text prompt ];
     config := request_config |}.

(** [!jsonText] for a string or [undefined]. *)
Definition falsy (jsonText : option JS.text) : bool :=
  match jsonText with
  | None => true
  | Some t => negb (truthy_text t)
  end.

Definition failure_message : string :=
  "Failed to analyze image. Please try a clearer screenshot.".

(** [analyzeImage]; the [console.error] of the handler leaves no trace in
    the model. *)
Definition analyzeImage (ai : GoogleGenAI) (base64Image : string) : Call value :=
  let modelId := "gemini-2.5-flash" in
  try_catch
    (let! response := await_generateContent ai (request modelId base64Image) in
     let jsonText := response_text response in
     if falsy jsonText then throw (Error "No data returned from Gemini")
     else
       let! data := lift (JSON_parse (ToString jsonText)) in
       let! name := lift (getProp data "name") in
       let! country := lift (getProp data "country") in
       let! city := lift (getProp data "city") in
       let! district := lift (getProp data "district") in
       let! description := lift (getProp data "description") in
       let! lat := lift (getProp data "lat") in
       let! lng := lift (getProp data "lng") in
       let! tags := lift (getProp data "tags") in
       ret (Obj [ ("name", name);
                  ("country", country);
                  ("city", city);
                  ("district", district);
                  ("description", description);
                  ("coordinates", Obj [ ("lat", lat); ("lng", lng) ]);
                  ("tags", tags) ]))
    (fun error => throw (Error failure_message)).

(** One invocation, started with nothing sent yet. *)
Definition run {A} (c : Call A) : list GenerateContentParameters * completion A := c [].

(** The three ways the endpoint can let the call down. *)
Definition endpoint_fails (answer : completion GenerateContentResponse) : Prop :=
  (exists e, answer = Throw e)
  \/ answer = Normal (mkResponse None)
  \/ (exists s, answer = Normal (mkResponse (Some (PlainText s)))).

End GeminiService.

(* ===================================================================== *)
(** * More of the JavaScript fragment                                     *)
(* ===================================================================== *)

Module Runtime.
Import JS.

(** [ToBoolean] on any value. *)
Definition truthy (v : value) : bool :=
  match v with
  | Undefined | Null => false
  | Bool b => b
  | Num n => truthy_number n
  | Str s => negb (String.eqb s "")
  | Arr _ | Obj _ => true
  end.

(** [a || b] *)
Definition or_else (a b : value) : value := if truthy a then a else b.

(** [s.split(sep)] for a separator of one character: the pieces between
    the separators, the empty ones included. *)
Fixpoint split (sep : Ascii.ascii) (s : string) : list string :=
  match s with
  | EmptyString => [EmptyString]
  | String c rest =>
      if Ascii.eqb c sep then EmptyString :: split sep rest
      else match split sep rest with
           | piece :: pieces => String c piece :: pieces
           | [] => [String c EmptyString]
           end
  end.

(** The character [','] (code 44). *)
Definition comma : Ascii.ascii := Ascii.ascii_of_nat 44.

(** [err.message] for whatever was thrown: the message of an error
    object, the [message] property of any other value. *)
Definition message (err : thrown) : completion value :=
  match err with
  | Error m | TypeError m | SyntaxError m => Normal (Str m)
  | Rejection reason => getProp reason "message"
  end.

(** What the spread [...v] copies into an object literal: the index
    properties of an array or string, which an object lists before its
    other properties, and the own properties of an object. *)
Definition index_entries (v : value) : list (string * value) :=
  match v with
  | Arr items => imap (fun i x => (pretty i, x)) items
  | Str s =>
      imap (fun i c => (pretty i, Str (String c EmptyString)))
        (String.list_ascii_of_string s)
  | Undefined | Null | Bool _ | Num _ | Obj _ => []
  end.

Definition named_entries (v : value) : list (string * value) :=
  match v with
  | Obj props => props
  | Undefined | Null | Bool _ | Num _ | Str _ | Arr _ => []
  end.

End Runtime.

(* ===================================================================== *)
(** * What a render evaluates                                              *)
(* ===================================================================== *)

(** [App]'s function body and the children React then renders read the
    untyped [restaurants] and [selectedRestaurant] states.  A render either
    returns or throws; the application has no error boundary, so a render
    that throws unmounts it.  Only the throwing matters here (the elements
    built are the subject of [RestaurantList] and [MapVisualization]
    below).  [MapVisualization] reads its props in an effect, not while
    rendering, and [AddPlaceModal] reads none of the two states.  The
    message of a [TypeError] names the expression that failed; the
    engine's own wording differs. *)
Module Rendering.
Import JS Runtime.

Definition andThen {A B : Type} (c : completion A) (k : A -> completion B)
  : completion B :=
  match c with
  | Normal a => k a
  | Throw e => Throw e
  end.

(** One check after the other, stopping at the first that throws. *)
Fixpoint each {A : Type} (f : A -> completion unit) (l : list A) : completion unit :=
  match l with
  | [] => Normal tt
  | x :: l' => andThen (f x) (fun _ => each f l')
  end.

(** A value placed between JSX tags: React renders strings and numbers as
    text, nothing for booleans, [null] and [undefined], an array item by
    item, and throws on any other object. *)
Fixpoint renderable (v : value) : bool :=
  match v with
  | Obj _ => false
  | Arr items => forallb renderable items
  | Undefined | Null | Bool _ | Num _ | Str _ => true
  end.

Definition child (v : value) : completion unit :=
  if renderable v then Normal tt
  else Throw (Error "Objects are not valid as a React child").

(** Whether the property key a value is converted to ([g[v]]) is a name
    inherited from [Object.prototype].  A string is its own key; an array
    of one item has the key of that item (the empty key for [null] and
    [undefined]); every other key holds a comma, a digit, a bracket or is
    one of [undefined], [null], [true], [false], [NaN], [Infinity]. *)
Fixpoint names_inherited (v : value) : bool :=
  match v with
  | Str s => inherited s
  | Arr items =>
      match items with
      | [x] => names_inherited x
      | _ => false
      end
  | Undefined | Null | Bool _ | Num _ | Obj _ => false
  end.

(** ** components/RestaurantList.tsx *)

(** One round of the grouping loop (lines 16-20).  Under an ordinary
    country the cities are an object literal: an inherited city name reads
    as a built-in without [push].  Under an inherited country name
    [g[r.country]] is itself a built-in of the engine and the loop goes on
    inside it, where what happens depends on the engine's own properties;
    this development does not follow it there and ends the run with an
    [Error] of its own (no [TypeError], so that nothing proved of a
    [TypeError] speaks of this case).  No value of the [Country] enum
    causes it. *)
Definition grouping_round (r : value) : completion unit :=
  andThen (getProp r "country") (fun country =>
  andThen (getProp r "city") (fun city =>
    if names_inherited country then
      Throw (Error "g[r.country] is a built-in object")
    else if names_inherited city then
      Throw (TypeError "g[r.country][r.city].push is not a function")
    else Normal tt)).

(** [r.tags.slice(0, 3).map(...)] (line 82): only an array has both
    methods. *)
Definition shown_tags (r : value) : completion (list value) :=
  andThen (getProp r "tags") (fun tags =>
    match tags with
    | Arr items => Normal (take 3 items)
    | Undefined | Null | Bool _ | Num _ | Str _ | Obj _ =>
        Throw (TypeError "r.tags.slice(0, 3).map is not a function")
    end).

(** The children of one card, in document order (lines 72-86). *)
Definition card_children (r : value) : completion unit :=
  andThen (getProp r "name") (fun name =>
  andThen (child name) (fun _ =>
  andThen (getProp r "district") (fun district =>
  andThen (child district) (fun _ =>
  andThen (getProp r "description") (fun description =>
  andThen (child description) (fun _ =>
  andThen (shown_tags r) (fun tags =>
  each child tags))))))).

(** The component: the grouping, then the JSX of every card (each spot
    gets one), then the children React renders from it. *)
Definition RestaurantList (restaurants : value) : completion unit :=
  match restaurants with
  | Arr items =>
      andThen (each grouping_round items) (fun _ =>
      andThen (each (fun r => andThen (shown_tags r) (fun _ => Normal tt)) items) (fun _ =>
      each card_children items))
  | Undefined | Null | Bool _ | Num _ | Str _ | Obj _ =>
      Throw (TypeError "restaurants.forEach is not a function")
  end.

(** ** App.tsx, the selected card (lines 108-127) *)

(** [selectedRestaurant.tags.map(...)] (line 122), evaluated in [App]'s
    own body. *)
Definition overlay (selectedRestaurant : option value) : completion unit :=
  match selectedRestaurant with
  | Some selected =>
      if truthy selected then
        andThen (getProp selected "tags") (fun tags =>
          match tags with
          | Arr _ => Normal tt
          | Undefined | Null | Bool _ | Num _ | Str _ | Obj _ =>
              Throw (TypeError "selectedRestaurant.tags.map is not a function")
          end)
      else Normal tt
  | None => Normal tt
  end.

(** The children of the selected card, in document order. *)
Definition overlay_children (selectedRestaurant : option value) : completion unit :=
  match selectedRestaurant with
  | Some selected =>
      if truthy selected then
        andThen (getProp selected "name") (fun name =>
        andThen (child name) (fun _ =>
        andThen (getProp selected "city") (fun city =>
        andThen (child city) (fun _ =>
        andThen (getProp selected "district") (fun district =>
        andThen (child district) (fun _ =>
        andThen (getProp selected "description") (fun description =>
        andThen (child description) (fun _ =>
        andThen (getProp selected "tags") (fun tags =>
          match tags with
          | Arr items => each child items
          | Undefined | Null | Bool _ | Num _ | Str _ | Obj _ => Normal tt
          end)))))))))
      else Normal tt
  | None => Normal tt
  end.

(** One render of [App]: its body, then its children in document order.
    The sidebar list comes before the selected card; the mobile list
    after it is given the same [restaurants] and so throws nothing the
    sidebar list has not thrown. *)
Definition App (restaurants : value) (selectedRestaurant : option value)
  : completion unit :=
  andThen (overlay selectedRestaurant) (fun _ =>
  andThen (RestaurantList restaurants) (fun _ =>
  overlay_children selectedRestaurant)).

End Rendering.

(* ===================================================================== *)
(** * App.tsx                                                             *)
(* ===================================================================== *)

Module App.
Import JS.

Definition STORAGE_KEY : string := "gourmet_snap_data".

(** [window.localStorage]: a finite map from keys to stored strings.
    The store has no quota here: [setItem] always succeeds. *)
Abbreviation Storage := (gmap string text).

Definition getItem (k : string) (ls : Storage) : option text := ls !! k.
Definition setItem (k : string) (v : text) (ls : Storage) : Storage := <[k := v]> ls.

Inductive ViewMode : Type := view_split | view_map | view_list.
Inductive MobileTab : Type := tab_map | tab_list.

(** The component's [useState] cells. *)
Record State : Type := mkState {
  restaurants : value;
  isModalOpen : bool;
  selectedRestaurant : option value;
  viewMode : ViewMode;
  mobileTab : MobileTab
}.

Definition initial : State :=
  {| restaurants := Arr [];
     isModalOpen := false;
     selectedRestaurant := None;
     viewMode := view_split;
     mobileTab := tab_list |}.

(** The mounted component in its browser: the state, the storage, and the
    [localStorage.setItem] calls made so far, oldest first. *)
Record World : Type := mkWorld {
  state : State;
  localStorage : Storage;
  setItem_calls : list (string * text)
}.

Definition setRestaurants (v : value) (s : State) : State :=
  mkState v (isModalOpen s) (selectedRestaurant s) (viewMode s) (mobileTab s).
Definition setIsModalOpen (b : bool) (s : State) : State :=
  mkState (restaurants s) b (selectedRestaurant s) (viewMode s) (mobileTab s).
Definition setSelectedRestaurant (r : option value) (s : State) : State :=
  mkState (restaurants s) (isModalOpen s) r (viewMode s) (mobileTab s).
Definition setViewMode (m : ViewMode) (s : State) : State :=
  mkState (restaurants s) (isModalOpen s) (selectedRestaurant s) m (mobileTab s).
Definition setMobileTab (t : MobileTab) (s : State) : State :=
  mkState (restaurants s) (isModalOpen s) (selectedRestaurant s) (viewMode s) t.

(** ** The effects *)

(** "Load data on mount": the value handed to [setRestaurants], if any.
    A failed parse is caught and only logged. *)
Definition loadEffect (ls : Storage) : option value :=
  match getItem STORAGE_KEY ls with
  | Some saved =>
      if truthy_text saved then
        match JSON_parse saved with
        | Normal parsed => Some parsed
        | Throw _ => None
        end
      else None
  | None => None
  end.

(** "Save data on change": one [setItem] call. *)
Definition saved_text (rs : value) : text := ToString (JSON_stringify rs).

Definition saveEffect (w : World) : World :=
  let v := saved_text (restaurants (state w)) in
  {| state := state w;
     localStorage := setItem STORAGE_KEY v (localStorage w);
     setItem_calls := (setItem_calls w ++ [(STORAGE_KEY, v)])%list |}.

(** [handleResize] *)
Definition handleResize (innerWidth : float) (s : State) : State :=
  if (innerWidth <? 768)%float then setViewMode view_list s else setViewMode view_split s.

(** ** The handlers *)

(** The updater [prev => [restaurant, ...prev]]. *)
Definition prepend (restaurant prev : value) : completion value :=
  match spread prev with
  | Normal items => Normal (Arr (restaurant :: items))
  | Throw e => Throw e
  end.

Definition handleSaveRestaurant (restaurant : value) (s : State) : completion State :=
  match prepend restaurant (restaurants s) with
  | Normal rs =>
      Normal (setMobileTab tab_map
                (setSelectedRestaurant (Some restaurant) (setRestaurants rs s)))
  | Throw e => Throw e
  end.

(** ** The component's life *)

(** What can happen to the mounted component. *)
Inductive event : Type :=
| onSave (restaurant : value)          (* AddPlaceModal's [onSave] *)
| onClose                              (* AddPlaceModal's [onClose] *)
| clickAddSpot
| onSelect (r : value)                 (* sidebar list and map *)
| onSelectMobile (r : value)           (* mobile list *)
| clickCloseCard
| clickTab (t : MobileTab)
| resize (innerWidth : float).

Definition with_state (w : World) (s : State) : World :=
  {| state := s; localStorage := localStorage w; setItem_calls := setItem_calls w |}.

(** One render of the component in a given state. *)
Definition render (s : State) : completion unit :=
  Rendering.App (restaurants s) (selectedRestaurant s).

(** A state update re-renders the component.  The new state is on screen
    (and its effects run) only if that render returns; a render that
    throws unmounts the application, and no effect of it runs.  (What the
    map draws in its own effect is the subject of [MapVisualization]
    below; a world here holds no drawing.) *)
Definition commit (w : World) (s : State) : completion World :=
  match render s with
  | Normal _ => Normal (with_state w s)
  | Throw err => Throw err
  end.

(** Mounting renders the initial state and then runs the three effects in
    source order; the load effect reads storage before the save effect
    first writes it.  The state updates the effects made are then
    rendered; when the load effect called [setRestaurants], that render
    has a new [restaurants] and the save effect runs again after it. *)
Definition mount (innerWidth : float) (ls : Storage) : completion World :=
  match commit {| state := initial; localStorage := ls; setItem_calls := [] |} initial with
  | Normal w0 =>
      let loaded := loadEffect (localStorage w0) in
      let w1 := saveEffect w0 in
      let s1 := handleResize innerWidth (state w1) in
      match loaded with
      | Some parsed =>
          match commit w1 (setRestaurants parsed s1) with
          | Normal w2 => Normal (saveEffect w2)
          | Throw err => Throw err
          end
      | None => commit w1 s1
      end
  | Throw err => Throw err
  end.

(** One event, the render it causes and the effects of that render.  The
    save effect depends on [restaurants] alone, and only [onSave] assigns
    it (always a fresh array). *)
Definition step (e : event) (w : World) : completion World :=
  let s := state w in
  match e with
  | onSave restaurant =>
      match handleSaveRestaurant restaurant s with
      | Normal s' =>
          match commit w s' with
          | Normal w' => Normal (saveEffect w')
          | Throw err => Throw err
          end
      | Throw err => Throw err
      end
  | onClose => commit w (setIsModalOpen false s)
  | clickAddSpot => commit w (setIsModalOpen true s)
  | onSelect r => commit w (setSelectedRestaurant (Some r) s)
  | onSelectMobile r =>
      commit w (setMobileTab tab_map (setSelectedRestaurant (Some r) s))
  | clickCloseCard => commit w (setSelectedRestaurant None s)
  | clickTab t => commit w (setMobileTab t s)
  | resize innerWidth => commit w (handleResize innerWidth s)
  end.

Fixpoint run (es : list event) (w : World) : completion World :=
  match es with
  | [] => Normal w
  | e :: es' =>
      match step e w with
      | Normal w' => run es' w'
      | Throw err => Throw err
      end
  end.

(** The application from the page load through a sequence of events. *)
Definition launch (innerWidth : float) (ls : Storage) (es : list event)
  : completion World :=
  match mount innerWidth ls with
  | Normal w => run es w
  | Throw err => Throw err
  end.

(** What holds of a world between events: only the one key was ever
    written, it holds the serialized current state, and every other key
    is as the browser [ls0] had it. *)
Record single_blob (ls0 : Storage) (w : World) : Prop := {
  only_key : Forall (fun c => c.1 = STORAGE_KEY) (setItem_calls w);
  in_sync : localStorage w !! STORAGE_KEY = Some (saved_text (restaurants (state w)));
  frame : forall k, k <> STORAGE_KEY -> localStorage w !! k = ls0 !! k
}.

(** A world whose [restaurants] state is the given value. *)
Definition holding (rs : value) (ls : Storage) : World :=
  {| state := setRestaurants rs initial; localStorage := ls; setItem_calls := [] |}.

End App.

(* ===================================================================== *)
(** * components/RestaurantList.tsx                                       *)
(* ===================================================================== *)

Module RestaurantList.
Import Types.

(** The object [g]: own properties only; what the prototype chain adds is
    accounted for by [JS.inherited] at each read. *)
Abbreviation Cities := (gmap string (list Restaurant)).
Abbreviation Grouped := (gmap string (gmap string (list Restaurant))).

(** What the [forEach] leaves behind. *)
Inductive outcome : Type :=
| built (g : Grouped)
| threw (e : JS.thrown)
| stored_on_builtin.
(* [stored_on_builtin]: [g[r.country]] resolved to a member of
   [Object.prototype] and the statement went on to write a property of
   that built-in; no value of the [Country] enum causes it. *)

(** [if (!o[k]) o[k] = init], then the read [o[k]]: the object after the
    conditional store, and the own value found at [k], or [None] when the
    read resolves to an inherited (truthy) member instead. *)
Definition ensure {A} (init : A) (o : gmap string A) (k : string)
  : gmap string A * option A :=
  match o !! k with
  | Some a => (o, Some a)
  | None => if JS.inherited k then (o, None) else (<[k := init]> o, Some init)
  end.

(** The body of [restaurants.forEach(r => ...)]. *)
Definition add (g : Grouped) (r : Restaurant) : outcome :=
  let c := Country_value (country r) in
  let '(g1, at_country) := ensure ∅ g c in
  match at_country with
  | None => stored_on_builtin
  | Some cities =>
      let '(cities1, at_city) := ensure [] cities (city r) in
      match at_city with
      | None => threw (JS.TypeError "g[r.country][r.city].push is not a function")
      | Some spots => built (<[c := <[city r := (spots ++ [r])%list]> cities1]> g1)
      end
  end.

Fixpoint forEach (restaurants : list Restaurant) (g : Grouped) : outcome :=
  match restaurants with
  | [] => built g
  | r :: rest =>
      match add g r with
      | built g' => forEach rest g'
      | stop => stop
      end
  end.

Definition grouped (restaurants : list Restaurant) : outcome := forEach restaurants ∅.

(** The array [g[country][city]], empty when there is none. *)
Definition bucket (g : Grouped) (country city : string) : list Restaurant :=
  default [] (g !! country ≫= (.!! city)).

(** The restaurants whose own fields name the bucket, in input order. *)
Definition belongs (country city : string) (r : Restaurant) : bool :=
  String.eqb (Country_value (Types.country r)) country && String.eqb (Types.city r) city.

(** No own property of [g]'s city objects bears an inherited name: the
    loop never stores under one. *)
Definition own_names_plain (g : Grouped) : Prop :=
  forall country cities city,
    g !! country = Some cities -> is_Some (cities !! city) -> JS.inherited city = false.

End RestaurantList.

(* ===================================================================== *)
(** * components/MapVisualization.tsx                                     *)
(* ===================================================================== *)

Module MapVisualization.
Import Types.
Local Open Scope float_scope.

(** ** The SVG the effect builds *)

Inductive attr : Type :=
| str (s : string)
| num (n : float)
| translate (x y : float).           (* [`translate(${x},${y})`] *)

Inductive node : Type := mkNode {
  tag : string;
  attrs : list (string * attr);
  styles : list (string * attr);
  content : option string;           (* [.text(...)] *)
  children : list node
}.

Record Dimensions : Type := mkDimensions {
  width : float;
  height : float
}.

(** A configured [d3.geoMercator()]. *)
Record Projection : Type := mkProjection {
  center : float * float;
  scale : float;
  translation : float * float
}.

Record Label : Type := mkLabel {
  label_name : string;
  label_lat : float;
  label_lng : float
}.

Definition countryLabels : list Label :=
  [ mkLabel "SOUTH KOREA" 36.5 128;
    mkLabel "JAPAN" 36.5 139 ].

Definition referencePoints : list Label :=
  [ mkLabel "Seoul" 37.5665 126.9780;
    mkLabel "Busan" 35.1796 129.0756;
    mkLabel "Incheon" 37.4563 126.7052;
    mkLabel "Daegu" 35.8714 128.6014;
    mkLabel "Daejeon" 36.3504 127.3845;
    mkLabel "Gwangju" 35.1595 126.8526;
    mkLabel "Suwon" 37.2636 127.0286;
    mkLabel "Ulsan" 35.5384 129.3114;
    mkLabel "Jeju City" 33.4996 126.5312;
    mkLabel "Tokyo" 35.6762 139.6503;
    mkLabel "Osaka" 34.6937 135.5023;
    mkLabel "Yokohama" 35.4437 139.6380;
    mkLabel "Nagoya" 35.1815 136.9066;
    mkLabel "Sapporo" 43.0618 141.3545;
    mkLabel "Fukuoka" 33.5902 130.4017;
    mkLabel "Kobe" 34.6901 135.1955;
    mkLabel "Kyoto" 35.0116 135.7681;
    mkLabel "Hiroshima" 34.3853 132.4553;
    mkLabel "Sendai" 38.2682 140.8694 ].

(** [n || 0] for a number or [undefined]. *)
Definition or_zero (n : option float) : float :=
  match n with
  | Some x => if JS.truthy_number x then x else 0
  | None => 0
  end.

Section D3.

(** The D3 library: what a Mercator projection with a given configuration
    returns for [[lng, lat]] (a point, or [null]), and the path data
    [d3.geoPath] computes for a feature of the world atlas. *)
Variable geoMercator : Projection -> float * float -> option (float * float).
Variable Feature : Type.
Variable geoPath : Projection -> Feature -> option string.

(** "Projection centered on East Asia" *)
Definition projection_of (d : Dimensions) : Projection :=
  {| center := (135, 36);
     scale := if width d <? 600 then 800 else 1600;
     translation := (width d / 2, height d / 2) |}.

Definition landmass (p : Projection) (f : Feature) : node :=
  mkNode "path"
    (match geoPath p f with Some d => [("d", str d)] | None => [] end ++
     [ ("fill", str "#86efac"); ("stroke", str "#ffffff"); ("stroke-width", num 0.5) ])
    [] None [].

Definition label_x (p : Projection) (d : Label) : float :=
  or_zero (fst <$> geoMercator p (label_lng d, label_lat d)).
Definition label_y (p : Projection) (d : Label) : float :=
  or_zero (snd <$> geoMercator p (label_lng d, label_lat d)).

Definition countryLabel (p : Projection) (d : Label) : node :=
  mkNode "text"
    [ ("class", str "country-label");
      ("x", num (label_x p d));
      ("y", num (label_y p d));
      ("text-anchor", str "middle");
      ("font-size", str "12px");
      ("font-weight", str "900");
      ("letter-spacing", str "0.2em");
      ("fill", str "#14532d");
      ("opacity", num 0.4) ]
    [ ("pointer-events", str "none") ]
    (Some (label_name d)) [].

Definition cityRef (p : Projection) (d : Label) : node :=
  mkNode "text"
    [ ("class", str "city-ref");
      ("x", num (label_x p d));
      ("y", num (label_y p d));
      ("text-anchor", str "middle");
      ("dy", num (-2));
      ("font-size", str "4px");
      ("fill", str "#334155");
      ("font-weight", str "600") ]
    [ ("opacity", num 0);
      ("pointer-events", str "none");
      ("text-shadow", str "0px 0px 2px white") ]
    (Some (label_name d)) [].

(** [projection([d.coordinates.lng, d.coordinates.lat]) || [0,0]] *)
Definition position (p : Projection) (r : Restaurant) : float * float :=
  default (0, 0) (geoMercator p (lng (coordinates r), lat (coordinates r))).

(** "Selection Ring" *)
Definition selectionRing (p : Projection) (selected : Restaurant) : node :=
  let '(sx, sy) := position p selected in
  mkNode "circle"
    [ ("cx", num sx);
      ("cy", num sy);
      ("r", num 10);
      ("fill", str "none");
      ("stroke", str "#f43f5e");
      ("stroke-width", num 0.5);
      ("opacity", num 0.6) ]
    [] None
    [ mkNode "animate"
        [ ("attributeName", str "r");
          ("from", num 5);
          ("to", num 20);
          ("dur", str "1.5s");
          ("repeatCount", str "indefinite") ]
        [] None [] ].

(** [selectedRestaurant?.id === d.id] *)
Definition is_selected (selectedRestaurant : option Restaurant) (d : Restaurant) : bool :=
  match selectedRestaurant with
  | Some s => String.eqb (id s) (id d)
  | None => false
  end.

(** "The Dot" *)
Definition dot (selectedRestaurant : option Restaurant) (d : Restaurant) : node :=
  mkNode "circle"
    [ ("class", str "restaurant");
      ("r", num 3);
      ("fill", str (if is_selected selectedRestaurant d then "#fbbf24" else "#f43f5e"));
      ("stroke", str "#fff");
      ("stroke-width", num 0.5);
      ("filter", str "drop-shadow(0px 1px 1px rgba(0,0,0,0.2))") ]
    [] None [].

(** "The Name Label" *)
Definition placeLabel (d : Restaurant) : node :=
  mkNode "text"
    [ ("class", str "place-label");
      ("x", num 0);
      ("y", num (-5));
      ("text-anchor", str "middle");
      ("fill", str "#1e293b");
      ("font-weight", str "bold");
      ("font-size", str "5px");
      ("stroke", str "#ffffff");
      ("stroke-width", num 0.5);
      ("paint-order", str "stroke") ]
    [ ("opacity", num 0); ("pointer-events", str "none") ]
    (Some (name d)) [].

(** "The District Label" *)
Definition districtLabel (d : Restaurant) : node :=
  mkNode "text"
    [ ("class", str "district-label");
      ("x", num 0);
      ("y", num 5);
      ("text-anchor", str "middle");
      ("fill", str "#64748b");
      ("font-size", str "3px") ]
    [ ("opacity", num 0);
      ("display", str "none");
      ("text-shadow", str "0px 0px 1px white") ]
    (Some (city d ++ " â€¢ " ++ district d)%string) [].

(** One entered datum of [selectAll(".place-group").data(restaurants)]
    with the three elements appended to it. *)
Definition placeGroup (p : Projection) (selectedRestaurant : option Restaurant)
    (d : Restaurant) : node :=
  let '(x, y) := position p d in
  mkNode "g"
    [ ("class", str "place-group cursor-pointer");
      ("transform", translate x y) ]
    [] None
    [ dot selectedRestaurant d; placeLabel d; districtLabel d ].

(** "4. User Restaurants": the freshly appended group holds no
    [.place-group] yet, so the join enters every datum, in order. *)
Definition pointsGroup (p : Projection) (restaurants : list Restaurant)
    (selectedRestaurant : option Restaurant) : node :=
  mkNode "g" [] [] None
    (match selectedRestaurant with
     | Some s => [selectionRing p s]
     | None => []
     end ++ map (placeGroup p selectedRestaurant) restaurants).

(** Everything the effect appends below the cleared [svg]: the group [g]
    and its layers.  The zoom behaviour only installs listeners and adds
    no element. *)
Definition mapContent (dimensions : Dimensions) (geoData : option (list Feature))
    (restaurants : list Restaurant) (selectedRestaurant : option Restaurant) : node :=
  let p := projection_of dimensions in
  mkNode "g" [] [] None
    (match geoData with
     | Some features => [mkNode "g" [] [] None (map (landmass p) features)]
     | None => []
     end
     ++ map (countryLabel p) countryLabels
     ++ map (cityRef p) referencePoints
     ++ [pointsGroup p restaurants selectedRestaurant]).

(** The drawing effect, on the children of the [svg] element.
    [svgRef_current] tells whether the ref holds the element. *)
Definition draw (svgRef_current : bool) (dimensions : Dimensions)
    (geoData : option (list Feature)) (restaurants : list Restaurant)
    (selectedRestaurant : option Restaurant) (svg : list node) : list node :=
  if negb svgRef_current || (width dimensions =? 0) then svg
  else [mapContent dimensions geoData restaurants selectedRestaurant].

End D3.

(** ** Reading the drawing back *)

(** Every element of a tree, in document order. *)
Fixpoint elements (n : node) : list node :=
  n :: flat_map elements (children n).

Definition all_elements (svg : list node) : list node := flat_map elements svg.

Definition is_tag (t : string) (n : node) : bool := String.eqb (tag n) t.

(** [getAttribute(k)], as set by [.attr(k, ...)]. *)
Definition getAttribute (k : string) (n : node) : option attr :=
  snd <$> List.find (fun a => String.eqb (fst a) k) (attrs n).

Definition class_of (n : node) : option attr := getAttribute "class" n.

Definition is_place_group (n : node) : bool :=
  match class_of n with
  | Some (str c) => String.eqb c "place-group cursor-pointer"
  | _ => false
  end.

(** [selectAll("circle")] and [selectAll(".place-group")] from the root. *)
Definition circles (svg : list node) : list node :=
  List.filter (is_tag "circle") (all_elements svg).

Definition place_groups (svg : list node) : list node :=
  List.filter is_place_group (all_elements svg).

End MapVisualization.

(* ===================================================================== *)
(** * components/AddPlaceModal.tsx                                        *)
(* ===================================================================== *)

Module AddPlaceModal.
Import JS Runtime GeminiService.

(** A [File] of the file input; the component only passes it on. *)
Inductive File : Type := mkFile (file_name : string).

(** The component's [useState] cells; [error] holds [null] or whatever
    the handler of [handleAnalyze] stored. *)
Record State : Type := mkState {
  file : option File;
  preview : option string;
  isAnalyzing : bool;
  error : value
}.

Definition initial : State :=
  {| file := None; preview := None; isAnalyzing := false; error := Null |}.

Definition setFile (f : option File) (s : State) : State :=
  mkState f (preview s) (isAnalyzing s) (error s).
Definition setPreview (p : option string) (s : State) : State :=
  mkState (file s) p (isAnalyzing s) (error s).
Definition setIsAnalyzing (b : bool) (s : State) : State :=
  mkState (file s) (preview s) b (error s).
Definition setError (e : value) (s : State) : State :=
  mkState (file s) (preview s) (isAnalyzing s) e.

(** [handleFileChange]: [e.target.files] is a list of files or [null].
    The second component is the file handed to [reader.readAsDataURL]. *)
Definition handleFileChange (files : option (list File)) (s : State)
  : State * option File :=
  match files with
  | Some (selected :: _) => (setError Null (setFile (Some selected) s), Some selected)
  | Some [] | None => (s, None)
  end.

(** [reader.onloadend]: [reader.result] is the data URL, or [null] when
    the read failed. *)
Definition onloadend (result : option string) (s : State) : State :=
  setPreview result s.

(** [handleClose], with the parent callbacks it invokes. *)
Definition handleClose (s : State) : State * list App.event :=
  (setError Null (setPreview None (setFile None s)), [App.onClose]).

(** The "Retake" button. *)
Definition clickRetake (s : State) : State :=
  setFile None (setPreview None s).

(** [{ id: uuidv4(), ...result, originalImage: preview, createdAt: Date.now() }] *)
Definition newRestaurant (uuid : string) (result : value) (preview : string)
    (now : float) : value :=
  Obj (index_entries result
       ++ fold_left (fun o p => obj_set p.1 p.2 o)
            (named_entries result
             ++ [ ("originalImage", Str preview); ("createdAt", Num now) ])
            [ ("id", Str uuid) ])%list.

(** How one run of [handleAnalyze] ends: the state it leaves, the parent
    callbacks it invoked, in order, and the exception that escaped it (a
    rejected promise nobody handles), if any. *)
Record Handled : Type := mkHandled {
  after : State;
  emitted : list App.event;
  unhandled : option thrown
}.

(** [handleAnalyze].  [analyzeImage] is the imported service, applied to
    a string or, when the preview has no comma, to [undefined]; [uuidv4]
    and [now] are what [uuidv4()] and [Date.now()] return when called. *)
Definition handleAnalyze (analyzeImage : option string -> Call value)
    (uuidv4 : string) (now : float) (s : State)
  : list GenerateContentParameters -> list GenerateContentParameters * Handled :=
  match preview s with
  | Some p =>
      if String.eqb p "" then fun sent => (sent, mkHandled s [] None)
      else
        let s1 := setError Null (setIsAnalyzing true s) in
        fun sent =>
          let '(sent', tried) :=
            try_catch
              (let base64Data := split comma p !! 1%nat in
               let! result := analyzeImage base64Data in
               let '(closed, callbacks) := handleClose s1 in
               ret (closed, App.onSave (newRestaurant uuidv4 result p now) :: callbacks))
              (fun err =>
                 let! msg := lift (message err) in
                 ret (setError (or_else msg (Str "Failed to analyze image")) s1, []))
              sent in
          (sent',
           match tried with
           | Normal (s2, callbacks) => mkHandled (setIsAnalyzing false s2) callbacks None
           | Throw e => mkHandled (setIsAnalyzing false s1) [] (Some e)
           end)
  | None => fun sent => (sent, mkHandled s [] None)
  end.

End AddPlaceModal.

(* ===================================================================== *)
(** * components/RestaurantList.tsx: what is rendered                     *)
(* ===================================================================== *)

Module RestaurantListView.
Import Types RestaurantList.

(** One card of the list: the restaurant it shows, whether it carries the
    selected styling ([selectedId === r.id]) and the tags it displays
    ([r.tags.slice(0, 3)]). *)
Record Card : Type := mkCard {
  spot : Restaurant;
  highlighted : bool;
  chips : list string
}.

Definition card (selectedId : option string) (r : Restaurant) : Card :=
  {| spot := r;
     highlighted := match selectedId with
                    | Some i => String.eqb i (id r)
                    | None => false
                    end;
     chips := take 3 (tags r) |}.

(** [Object.entries(o)].  The engine fixes an order; the model lists the
    entries in the order of the map and nothing below depends on it. *)
Definition entries {A} (o : gmap string A) : list (string * A) := map_to_list o.

(** What the component returns: the placeholder, or one section per
    country, holding one group per city, holding the cards. *)
Inductive view : Type :=
| EmptyState
| Sections (countries : list (string * list (string * list Card))).

(** The JSX below the [useMemo], for the object [g] it produced. *)
Definition view_of (g : Grouped) (restaurants : list Restaurant)
    (selectedId : option string) : view :=
  if Nat.eqb (length restaurants) 0 then EmptyState
  else
    Sections
      (map (fun country_cities =>
              (country_cities.1,
               map (fun city_spots =>
                      (city_spots.1, map (card selectedId) city_spots.2))
                 (entries country_cities.2)))
         (entries g)).

(** The restaurants an object [g] holds, bucket after bucket. *)
Definition spots_in (cities : Cities) : list Restaurant :=
  flat_map snd (entries cities).

Definition spots_of (g : Grouped) : list Restaurant :=
  flat_map (fun country_cities => spots_in country_cities.2) (entries g).

(** No country of [g] is without a city and no city without a
    restaurant. *)
Definition no_empty_group (g : Grouped) : Prop :=
  forall country cities,
    g !! country = Some cities ->
    cities <> ∅
    /\ forall city spots, cities !! city = Some spots -> spots <> [].

(** Every card of a view, section after section. *)
Definition cards (v : view) : list Card :=
  match v with
  | EmptyState => []
  | Sections countries =>
      flat_map (fun section => flat_map snd section.2) countries
  end.

End RestaurantListView.

(* ===================================================================== *)
(** * components/MapVisualization.tsx: the zoom listener                  *)
(* ===================================================================== *)

Module Zoom.
Import Types.
Local Open Scope float_scope.

(** [Math.max(a, b)]: [NaN] if either is, and [+0] above [-0]. *)
Definition Math_max (a b : float) : float :=
  if PrimFloat.is_nan a || PrimFloat.is_nan b then nan
  else if a <? b then b
  else if b <? a then a
  else if PrimFloat.get_sign a then b else a.

(** The values the listener computes from the zoom factor [k]. *)

(** "1. Update Dot Size" *)
Definition dotRadius (selectedRestaurant : option Restaurant) (d : Restaurant)
    (k : float) : float :=
  if MapVisualization.is_selected selectedRestaurant d then 10 / k + 3 else 6 / k + 2.

(** "2. Semantic Zoom: Country Labels (Low Zoom)" *)
Definition countryLabelOpacity (k : float) : float :=
  if k <? 4 then 1 else Math_max 0 (1 - (k - 4)).

(** "3. Semantic Zoom: City Labels (Medium Zoom)" *)
Definition cityRefOpacity (k : float) : float :=
  if 3 <? k then (if 12 <? k then 0.5 else 1) else 0.

Definition cityRefFontSize (k : float) : string :=
  if 12 <? k then "2px" else "4px".

(** "4. Semantic Zoom: Restaurant Names (High Zoom)" *)
Definition placeLabelOpacity (k : float) : float :=
  if 4 <? k then 1 else 0.

Definition placeLabelFontSize (k : float) : string :=
  if 10 <? k then "3px" else "5px".

(** "5. Semantic Zoom: District Detail (Very High Zoom)" *)
Definition districtLabelOpacity (k : float) : float :=
  if 10 <? k then 0.8 else 0.

Definition districtLabelDisplay (k : float) : string :=
  if 10 <? k then "block" else "none".

End Zoom.

(* ===================================================================== *)
(** * Runs of the App component                                           *)
(* ===================================================================== *)

Module AppRuns.
Import JS App.

(** The restaurants the [onSave] events of a run carry, oldest first. *)
Fixpoint saved_by (es : list event) : list value :=
  match es with
  | [] => []
  | onSave restaurant :: es' => restaurant :: saved_by es'
  | _ :: es' => saved_by es'
  end.

(** The elements of the [restaurants] state, when it is an array. *)
Definition listed (w : World) : list value :=
  match restaurants (state w) with
  | Arr items => items
  | _ => []
  end.

(** The list and the map only ever select a restaurant they were given
    to render: an event is [offered] by a world when it selects a listed
    restaurant, or does not select at all. *)
Definition offered (w : World) (e : event) : Prop :=
  match e with
  | onSelect r | onSelectMobile r => r ∈ listed w
  | _ => True
  end.

(** What the card overlay can show: a listed restaurant, or nothing. *)
Definition selection_listed (w : World) : Prop :=
  match selectedRestaurant (state w) with
  | Some r => r ∈ listed w
  | None => True
  end.

(** A run in which every event is offered by the world it meets. *)
Fixpoint offered_run (es : list event) (w : World) : Prop :=
  match es with
  | [] => True
  | e :: es' =>
      offered w e
      /\ match step e w with
         | Normal w' => offered_run es' w'
         | Throw _ => True
         end
  end.

(** The window width the latest [handleResize] saw: the one at mount, or
    that of the last [resize] event. *)
Fixpoint last_width (innerWidth : float) (es : list event) : float :=
  match es with
  | [] => innerWidth
  | resize innerWidth' :: es' => last_width innerWidth' es'
  | _ :: es' => last_width innerWidth es'
  end.

(** The JSON texts [JSON.stringify] can produce: their numbers are finite
    and none is negative zero. *)
Fixpoint stringified (j : json) : bool :=
  match j with
  | JsonNull | JsonBool _ | JsonString _ => true
  | JsonNumber n => storable_number n
  | JsonArray elements => forallb stringified elements
  | JsonObject members => forallb (fun m => stringified m.2) members
  end.

(** A reload: the page is closed and the application mounts afresh on the
    storage it left. *)
Definition reload (innerWidth : float) (w : World) : completion World :=
  mount innerWidth (localStorage w).

End AppRuns.

(* ===================================================================== *)
(** * From a response to a saved record                                   *)
(* ===================================================================== *)

Module Flow.
Import JS.

(** [data.k] for parsed data other than [null]: the own property, or
    [undefined]. *)
Definition field (data : value) (k : string) : value :=
  match data with
  | Obj props => default Undefined (own props k)
  | _ => Undefined
  end.

(** The object [analyzeImage] returns for the parsed response [data]. *)
Definition record_of (data : value) : value :=
  Obj [ ("name", field data "name");
        ("country", field data "country");
        ("city", field data "city");
        ("district", field data "district");
        ("description", field data "description");
        ("coordinates", Obj [ ("lat", field data "lat"); ("lng", field data "lng") ]);
        ("tags", field data "tags") ].

(** The object [handleAnalyze] hands to [onSave] for that response. *)
Definition saved_record (uuid : string) (data : value) (preview : string)
    (now : float) : value :=
  Obj [ ("id", Str uuid);
        ("name", field data "name");
        ("country", field data "country");
        ("city", field data "city");
        ("district", field data "district");
        ("description", field data "description");
        ("coordinates", Obj [ ("lat", field data "lat"); ("lng", field data "lng") ]);
        ("tags", field data "tags");
        ("originalImage", Str preview);
        ("createdAt", Num now) ].

(** A data URL: a header, a comma, the payload. *)
Definition data_url (header payload : string) : string :=
  (header ++ String Runtime.comma payload)%string.

Definition comma_free (s : string) : Prop :=
  Runtime.comma ∉ String.list_ascii_of_string s.

End Flow.

(* ===================================================================== *)
(** * Sample data                                                         *)
(* ===================================================================== *)

Module Samples.
Import JS Types.

(** Saved records. *)
Definition ichiran : Restaurant :=
  {| id := "7c9e6679-7425-40de-944b-e07fc1f90ae7";
     name := "Ichiran";
     country := JP;
     city := "Fukuoka";
     district := "Hakata";
     description := "Tonkotsu ramen in solo booths.";
     coordinates := {| lat := 33.59; lng := 130.4 |};
     tags := ["Ramen"; "Tonkotsu"; "Late night"];
     originalImage := "data:image/jpeg;base64,AAAA";
     createdAt := 1700000000000 |}.

Definition gwangjang : Restaurant :=
  {| id := "16fd2706-8baf-433b-82eb-8c7fada847da";
     name := "Gwangjang Market";
     country := KR;
     city := "Seoul";
     district := "Jongno-gu";
     description := "Mung bean pancakes at the market stalls.";
     coordinates := {| lat := 37.57; lng := 126.99 |};
     tags := ["Bindaetteok"; "Market"];
     originalImage := "data:image/jpeg;base64,BBBB";
     createdAt := 1700000100000 |}.

(** A record as [analyzeImage] yields it when the response spells the
    latitude [1e999]: [JSON.parse] reads that literal as [Infinity]. *)
Definition off_the_map : Restaurant :=
  {| id := "886313e1-3b8a-5372-9b90-0c9aee199e5d";
     name := "Nowhere Diner";
     country := OTHER;
     city := "Nowhere";
     district := "None";
     description := "Coordinates overflowed.";
     coordinates := {| lat := infinity; lng := 130.4 |};
     tags := [];
     originalImage := "data:image/jpeg;base64,CCCC";
     createdAt := 1700000200000 |}.

(** A city may be called anything; this one shares its name with a
    property every object literal inherits. *)
Definition constructor_cafe : Restaurant :=
  {| id := "4a7c8e2b-90d1-4f6a-b1c3-5e2d7f8a9b0c";
     name := "Constructor Cafe";
     country := JP;
     city := "constructor";
     district := "Shibuya";
     description := "Coffee among scaffolding.";
     coordinates := {| lat := 35.66; lng := 139.7 |};
     tags := ["Coffee"];
     originalImage := "data:image/jpeg;base64,DDDD";
     createdAt := 1700000300000 |}.

(** Another city with an inherited name. *)
Definition tostring_tavern : Restaurant :=
  {| id := "0b9f3c1e-5d2a-4c8e-9f6b-3a1d7e4c2b85";
     name := "The Tavern";
     country := KR;
     city := "toString";
     district := "Mapo-gu";
     description := "Grilled pork belly.";
     coordinates := {| lat := 37.55; lng := 126.91 |};
     tags := ["BBQ"];
     originalImage := "data:image/jpeg;base64,EEEE";
     createdAt := 1700000400000 |}.

(** ** Endpoints *)

(** An endpoint that is down, one that answers without text, and one that
    answers with prose. *)
Definition ai_down : GeminiService.GoogleGenAI :=
  GeminiService.mkClient (fun _ => Throw (Rejection (Str "503"))).

Definition ai_mute : GeminiService.GoogleGenAI :=
  GeminiService.mkClient (fun _ => Normal (GeminiService.mkResponse None)).

Definition ai_prose : GeminiService.GoogleGenAI :=
  GeminiService.mkClient
    (fun _ =>
       Normal (GeminiService.mkResponse (Some (PlainText "I cannot read this image.")))).

(** An endpoint that answers with a well-formed record. *)
Definition ai_ok : GeminiService.GoogleGenAI :=
  GeminiService.mkClient (fun _ =>
    Normal (GeminiService.mkResponse (Some (JSONText (JsonObject
      [ ("name", JsonString "Ichiran");
        ("country", JsonString "Japan");
        ("city", JsonString "Fukuoka");
        ("district", JsonString "Hakata");
        ("lat", JsonNumber 33.59%float);
        ("lng", JsonNumber 130.4%float);
        ("description", JsonString "Tonkotsu ramen in solo booths.");
        ("tags", JsonArray [JsonString "Ramen"]) ]))))).

(** The JSON text [ai_ok] answers with. *)
Definition ichiran_response : json :=
  JsonObject
    [ ("name", JsonString "Ichiran");
      ("country", JsonString "Japan");
      ("city", JsonString "Fukuoka");
      ("district", JsonString "Hakata");
      ("lat", JsonNumber 33.59%float);
      ("lng", JsonNumber 130.4%float);
      ("description", JsonString "Tonkotsu ramen in solo booths.");
      ("tags", JsonArray [JsonString "Ramen"]) ].

(** An endpoint that answers with the empty object. *)
Definition ai_empty_object : GeminiService.GoogleGenAI :=
  GeminiService.mkClient
    (fun _ => Normal (GeminiService.mkResponse (Some (JSONText (JsonObject []))))).

(** ** Browsers *)

(** A browser that already keeps something else in its storage. *)
Definition other_site_data : App.Storage := {[ "theme" := PlainText "dark" ]}.

(** A storage whose entry was cut short. *)
Definition corrupted : App.Storage :=
  {[ App.STORAGE_KEY := PlainText "[{'id':'7c9e" ]}.

(** A storage whose entry is JSON, but not a list. *)
Definition object_stored : App.Storage :=
  {[ App.STORAGE_KEY := JSONText (JsonObject [("version", JsonNumber 2%float)]) ]}.

(** ** The modal *)

(** A screenshot was chosen and read. *)
Definition previewing : AddPlaceModal.State :=
  {| AddPlaceModal.file := Some (AddPlaceModal.mkFile "reel.png");
     AddPlaceModal.preview := Some (Flow.data_url "data:image/png;base64" "iVBORw0KGgo");
     AddPlaceModal.isAnalyzing := false;
     AddPlaceModal.error := Null |}.

(** The record the modal makes of [ichiran_response] and that
    screenshot. *)
Definition fresh_ichiran : Restaurant :=
  {| id := "id-1";
     name := "Ichiran";
     country := JP;
     city := "Fukuoka";
     district := "Hakata";
     description := "Tonkotsu ramen in solo booths.";
     coordinates := {| lat := 33.59; lng := 130.4 |};
     tags := ["Ramen"];
     originalImage := Flow.data_url "data:image/png;base64" "iVBORw0KGgo";
     createdAt := 1700000000000 |}.

(** The service as the modal imports it, behind a given endpoint (a
    missing argument is passed on as the text "undefined"; no sample
    relies on it). *)
Definition service (ai : GeminiService.GoogleGenAI) (base64Data : option string)
  : GeminiService.Call value :=
  GeminiService.analyzeImage ai (default "undefined" base64Data).

(** ** Map libraries and containers *)

(** A stand-in for the library's projection (plate carree about the
    centre), enough to run the effect. *)
Definition plate_carree (p : MapVisualization.Projection) (point : float * float)
  : option (float * float) :=
  let '(cx, cy) := MapVisualization.center p in
  let '(tx, ty) := MapVisualization.translation p in
  let k := (MapVisualization.scale p / 100)%float in
  Some (tx + (point.1 - cx) * k, ty - (point.2 - cy) * k)%float.

Definition no_path (p : MapVisualization.Projection) (f : unit) : option string := None.

Definition desktop : MapVisualization.Dimensions := MapVisualization.mkDimensions 1280 720.

End Samples.

(* ===================================================================== *)
(** * Properties of [analyzeImage]                                        *)
(* ===================================================================== *)

Module GeminiServiceProofs.
Import JS GeminiService Samples.

(** Unfolds the plumbing of [Call] computations. *)
Ltac unfold_call :=
  unfold run, analyzeImage, try_catch, bind, await_generateContent, lift, throw, ret.

(** The eight reads of the parsed data either all succeed or the first
    one throws: [getProp] fails on [undefined] and [null] only. *)
Lemma getProp_total (data : value) (k : string) :
  data <> Undefined -> data <> Null -> exists v, getProp data k = Normal v.
Proof.
  intros Hu Hn. destruct data; simpl; eauto; congruence.
Qed.

(** The requests sent by one call, whatever the endpoint answers. *)
Lemma analyzeImage_sent (ai : GoogleGenAI) (base64Image : string)
    (sent : list GenerateContentParameters) :
  (analyzeImage ai base64Image sent).1
  = (sent ++ [request "gemini-2.5-flash" base64Image])%list.
Proof.
  unfold_call.
  destruct (generateContent ai _) as [[[t|]]|e]; simpl; [|reflexivity..].
  destruct (truthy_text t); simpl; [|reflexivity].
  destruct (JSON_parse t) as [data|e]; simpl; [|reflexivity].
  destruct data; reflexivity.
Qed.

(** C1. A successful call returns the object literal of the source: its
    own properties are exactly name, country, city, district, description,
    coordinates and tags, in that order; [coordinates] is the object
    [{lat, lng}] built from [data.lat] and [data.lng]; every other
    property is the same-named property of the parsed response; and the
    object has no [id], [originalImage] or [createdAt]. *)
Theorem analyzeImage_returns_record (ai : GoogleGenAI) (base64Image : string)
    (sent sent' : list GenerateContentParameters) (result : value) :
  analyzeImage ai base64Image sent = (sent', Normal result) ->
  exists (jsonText : JS.text) (data : value) (props : list (string * value)),
    generateContent ai (request "gemini-2.5-flash" base64Image)
      = Normal (mkResponse (Some jsonText))
    /\ JSON_parse jsonText = Normal data
    /\ result = Obj props
    /\ keys props
       = ["name"; "country"; "city"; "district"; "description"; "coordinates"; "tags"]
    /\ (forall k, k ∈ ["name"; "country"; "city"; "district"; "description"; "tags"] ->
          getProp data k = Normal (default Undefined (own props k)))
    /\ (exists lat lng,
          getProp data "lat" = Normal lat /\ getProp data "lng" = Normal lng
          /\ own props "coordinates" = Some (Obj [("lat", lat); ("lng", lng)]))
    /\ own props "id" = None
    /\ own props "originalImage" = None
    /\ own props "createdAt" = None.
Proof.
  unfold_call.
  destruct (generateContent ai _) as [[[t|]]|e] eqn:Hcall; simpl; [|discriminate..].
  destruct (truthy_text t) eqn:Ht; simpl; [|discriminate].
  destruct t as [doc|s]; simpl; [|discriminate].
  intros Hres.
  exists (JSONText doc), (revive doc).
  assert (Hparse : JSON_parse (JSONText doc) = Normal (revive doc)) by reflexivity.
  revert Hres Hparse. generalize (revive doc) as data.
  intros [| |b|n|s|items|props] Hres Hparse; simpl in Hres;
    try discriminate; injection Hres as _ <-;
    (eexists; split; [reflexivity|]; split; [exact Hparse|];
     repeat split; [| do 2 eexists; repeat split; reflexivity ]);
    intros k Hk; repeat (apply elem_of_cons in Hk as [->|Hk]; [reflexivity|]);
    by apply elem_of_nil in Hk.
Qed.

(** C2. The one request of a call carries the fixed configuration: JSON
    as response MIME type and [restaurantSchema] as response schema, whose
    required list is the eight field names and whose [country] property is
    restricted to the three enum strings.  The configuration does not
    mention the image. *)
Theorem analyzeImage_fixed_config (ai : GoogleGenAI) (base64Image : string) :
  map config (run (analyzeImage ai base64Image)).1 = [request_config]
  /\ responseMimeType request_config = "application/json"
  /\ responseSchema request_config = restaurantSchema
  /\ required restaurantSchema
     = Some ["name"; "country"; "city"; "district"; "lat"; "lng"; "description"; "tags"]
  /\ (exists country_schema,
        (properties restaurantSchema
           ≫= fun ps => snd <$> List.find (fun p => String.eqb p.1 "country") ps)
        = Some country_schema
        /\ type country_schema = STRING
        /\ enum country_schema = Some ["South Korea"; "Japan"; "Other"]).
Proof.
  split.
  - unfold run. rewrite analyzeImage_sent. reflexivity.
  - repeat split. eexists. repeat split; reflexivity.
Qed.

(** C7. One invocation issues exactly one request, whether it ends in a
    record or in the error: the log grows by the single request built from
    the image, and nothing is sent a second time. *)
Theorem analyzeImage_one_request (ai : GoogleGenAI) (base64Image : string)
    (sent : list GenerateContentParameters) :
  (analyzeImage ai base64Image sent).1
    = (sent ++ [request "gemini-2.5-flash" base64Image])%list
  /\ length (run (analyzeImage ai base64Image)).1 = 1.
Proof.
  split; [apply analyzeImage_sent|].
  unfold run. by rewrite analyzeImage_sent.
Qed.

(** C9. When the request throws, or the response has no text, or its
    text is not JSON, the call ends by throwing the Error with the fixed
    message, and so returns no record at all. *)
Theorem analyzeImage_uniform_failure (ai : GoogleGenAI) (base64Image : string)
    (sent : list GenerateContentParameters) :
  endpoint_fails (generateContent ai (request "gemini-2.5-flash" base64Image)) ->
  (analyzeImage ai base64Image sent).2
  = Throw (Error "Failed to analyze image. Please try a clearer screenshot.").
Proof.
  unfold_call.
  intros [[e ->]|[->|[s ->]]]; simpl; try reflexivity.
  destruct (negb (s =? ""))%string; reflexivity.
Qed.

(** Whatever goes wrong, the caller sees that one Error. *)
Lemma analyzeImage_throws_only_failure (ai : GoogleGenAI) (base64Image : string)
    (sent : list GenerateContentParameters) (e : thrown) :
  (analyzeImage ai base64Image sent).2 = Throw e -> e = Error failure_message.
Proof.
  unfold_call.
  destruct (generateContent ai _) as [[[t|]]|e0]; simpl; try congruence.
  destruct (truthy_text t); simpl; try congruence.
  destruct (JSON_parse t) as [data|e1]; simpl; try congruence.
  destruct data; simpl; congruence.
Qed.

Lemma analyzeImage_returns_record_witness :
  exists jsonText data props,
    generateContent ai_ok (request "gemini-2.5-flash" "AAAA")
      = Normal (mkResponse (Some jsonText))
    /\ JSON_parse jsonText = Normal data
    /\ (run (analyzeImage ai_ok "AAAA")).2 = Normal (Obj props)
    /\ own props "city" = Some (Str "Fukuoka").
Proof.
  destruct (analyzeImage_returns_record ai_ok "AAAA" []
              (run (analyzeImage ai_ok "AAAA")).1
              (match (run (analyzeImage ai_ok "AAAA")).2 with
               | Normal v => v | Throw _ => Undefined end) eq_refl)
    as (jsonText & data & props & Hcall & Hparse & Hres & _).
  exists jsonText, data, props. repeat split; try assumption.
  - simpl in Hres. simpl. by rewrite Hres.
  - simpl in Hres. by injection Hres as <-.
Defined.

Lemma analyzeImage_uniform_failure_witness :
  (analyzeImage ai_down "AAAA" []).2
    = Throw (Error "Failed to analyze image. Please try a clearer screenshot.")
  /\ (analyzeImage ai_mute "AAAA" []).2
    = Throw (Error "Failed to analyze image. Please try a clearer screenshot.")
  /\ (analyzeImage ai_prose "AAAA" []).2
    = Throw (Error "Failed to analyze image. Please try a clearer screenshot.").
Proof.
  split; [|split].
  - apply (analyzeImage_uniform_failure ai_down "AAAA" []).
    left. eexists. reflexivity.
  - apply (analyzeImage_uniform_failure ai_mute "AAAA" []).
    right. left. reflexivity.
  - apply (analyzeImage_uniform_failure ai_prose "AAAA" []).
    right. right. eexists. reflexivity.
Defined.

End GeminiServiceProofs.

(* ===================================================================== *)
(** * Properties of the App component                                     *)
(* ===================================================================== *)

Module AppProofs.
Import JS Types App.

(** ** Renders and commits *)

Lemma render_nothing (s : State) :
  restaurants s = Arr [] -> selectedRestaurant s = None -> render s = Normal tt.
Proof. unfold render. by intros -> ->. Qed.

Lemma commit_Normal (w w' : World) (s : State) :
  commit w s = Normal w' <-> render s = Normal tt /\ w' = with_state w s.
Proof.
  unfold commit. destruct (render s) as [[]|err]; split.
  - by intros [= <-].
  - by intros [_ ->].
  - discriminate.
  - by intros [? _].
Qed.

Lemma handleResize_cells (innerWidth : float) (s : State) :
  restaurants (handleResize innerWidth s) = restaurants s
  /\ selectedRestaurant (handleResize innerWidth s) = selectedRestaurant s.
Proof. unfold handleResize. by destruct (innerWidth <? 768)%float. Qed.

Lemma render_unselected (s : State) :
  selectedRestaurant s = None ->
  render s = Rendering.RestaurantList (restaurants s).
Proof.
  unfold render, Rendering.App, Rendering.andThen. intros ->. simpl.
  by destruct (Rendering.RestaurantList _) as [[]|].
Qed.

(** ** Saving prepends *)

Lemma step_onSave (restaurant : value) (w w' : World) :
  step (onSave restaurant) w = Normal w' ->
  exists items s',
    spread (restaurants (state w)) = Normal items
    /\ s' = setMobileTab tab_map
              (setSelectedRestaurant (Some restaurant)
                 (setRestaurants (Arr (restaurant :: items)) (state w)))
    /\ render s' = Normal tt
    /\ w' = saveEffect (with_state w s').
Proof.
  simpl. unfold handleSaveRestaurant, prepend.
  destruct (spread (restaurants (state w))) as [items|err]; [|discriminate].
  destruct (commit w _) as [w1|err] eqn:Hcommit; [|discriminate].
  apply commit_Normal in Hcommit as [Hrender ->].
  intros [= <-]. eexists items, _. by repeat split.
Qed.

(** Saving a sequence of restaurants, oldest first. *)
Lemma run_onSave (saved previous : list value) (w w' : World) :
  restaurants (state w) = Arr previous ->
  run (map onSave saved) w = Normal w' ->
  restaurants (state w') = Arr (rev saved ++ previous)%list.
Proof.
  revert previous w. induction saved as [|r saved IH]; intros previous w Hw.
  - by intros [= <-].
  - cbn [map run rev].
    destruct (step (onSave r) w) as [w1|err] eqn:Hstep; [|discriminate].
    apply step_onSave in Hstep as (items & s' & Hspread & -> & _ & ->).
    rewrite Hw in Hspread. injection Hspread as <-.
    intros Hrun. apply (IH (r :: previous)) in Hrun; [|reflexivity].
    by rewrite Hrun, <- app_assoc.
Qed.

(** C8. On a state whose [restaurants] is the array [previous],
    [handleSaveRestaurant] succeeds and leaves the array whose head is the
    new restaurant and whose tail is [previous] itself; hence after any
    sequence of saves the application lives through, the array lists them
    newest first, ahead of what was there before. *)
Theorem handleSaveRestaurant_prepends (restaurant : value) (previous : list value)
    (s : State) :
  restaurants s = Arr previous ->
  (exists s', handleSaveRestaurant restaurant s = Normal s'
              /\ restaurants s' = Arr (restaurant :: previous))
  /\ (forall (saved : list value) (w w' : World), state w = s ->
        run (map onSave saved) w = Normal w' ->
        restaurants (state w') = Arr (rev saved ++ previous)%list).
Proof.
  intros Hs. split.
  - unfold handleSaveRestaurant, prepend. rewrite Hs. simpl. eauto.
  - intros saved w w' <-. by apply run_onSave.
Qed.

(** ** Loading on mount *)

Lemma loadEffect_Some (ls : Storage) (parsed : value) :
  loadEffect ls = Some parsed <->
  exists doc, getItem STORAGE_KEY ls = Some (JSONText doc) /\ parsed = revive doc.
Proof.
  unfold loadEffect. split.
  - destruct (getItem STORAGE_KEY ls) as [[doc|s]|]; simpl; try discriminate.
    + intros [= <-]. eauto.
    + destruct (negb _); discriminate.
  - intros (doc & -> & ->). reflexivity.
Qed.

(** The world the first render and its three effects leave. *)
Lemma mount_unfold (innerWidth : float) (ls : Storage) :
  mount innerWidth ls
  = let w1 := saveEffect {| state := initial; localStorage := ls; setItem_calls := [] |} in
    let s1 := handleResize innerWidth initial in
    match loadEffect ls with
    | Some parsed =>
        match render (setRestaurants parsed s1) with
        | Normal _ => Normal (saveEffect (with_state w1 (setRestaurants parsed s1)))
        | Throw err => Throw err
        end
    | None => Normal (with_state w1 s1)
    end.
Proof.
  unfold mount, commit. rewrite (render_nothing initial) by reflexivity.
  cbn [with_state state localStorage setItem_calls saveEffect].
  destruct (loadEffect ls) as [parsed|].
  - by destruct (render _).
  - rewrite render_nothing; [reflexivity| |];
      unfold handleResize; by destruct (innerWidth <? 768)%float.
Qed.

Lemma mount_restaurants (innerWidth : float) (ls : Storage) (w : World) :
  mount innerWidth ls = Normal w ->
  restaurants (state w) = default (Arr []) (loadEffect ls).
Proof.
  rewrite mount_unfold. cbv zeta.
  destruct (loadEffect ls) as [parsed|].
  - destruct (render _); [|discriminate]. by intros [= <-].
  - intros [= <-]. simpl. apply handleResize_cells.
Qed.

(** With nothing to load, mounting cannot fail. *)
Lemma mount_nothing_loaded (innerWidth : float) (ls : Storage) :
  loadEffect ls = None ->
  exists w, mount innerWidth ls = Normal w /\ restaurants (state w) = Arr [].
Proof.
  intros Hload. rewrite mount_unfold, Hload. cbv zeta.
  eexists. split; [reflexivity|]. simpl. apply handleResize_cells.
Qed.

(** C10. When nothing is stored under the key, or what is stored is not
    JSON, mounting yields a world (the application does not crash) and
    [restaurants] is still the empty array; and whenever [restaurants] is
    anything else after the mount, that value is what [JSON.parse] made of
    the stored text. *)
Theorem mount_tolerates_corrupted_storage (innerWidth : float) (ls : Storage) :
  (getItem STORAGE_KEY ls = None
   \/ (exists s, getItem STORAGE_KEY ls = Some (PlainText s)) ->
   exists w, mount innerWidth ls = Normal w /\ restaurants (state w) = Arr [])
  /\ (forall w, mount innerWidth ls = Normal w ->
      restaurants (state w) <> Arr [] ->
      exists saved, getItem STORAGE_KEY ls = Some saved
                    /\ JSON_parse saved = Normal (restaurants (state w))).
Proof.
  split.
  - intros Hstored. apply mount_nothing_loaded.
    unfold loadEffect. destruct Hstored as [->|[s ->]]; simpl; [reflexivity|].
    by destruct (negb _).
  - intros w Hmount. rewrite (mount_restaurants _ _ _ Hmount).
    destruct (loadEffect ls) as [parsed|] eqn:Hload; simpl; [|congruence].
    apply loadEffect_Some in Hload as (doc & Hget & ->).
    intros _. exists (JSONText doc). by split.
Qed.

(** ** The storage entry *)

Lemma saveEffect_calls (w : World) :
  setItem_calls (saveEffect w)
  = (setItem_calls w ++ [(STORAGE_KEY, saved_text (restaurants (state w)))])%list.
Proof. reflexivity. Qed.

Lemma saveEffect_storage (w : World) :
  localStorage (saveEffect w)
  = <[STORAGE_KEY := saved_text (restaurants (state w))]> (localStorage w).
Proof. reflexivity. Qed.

Lemma single_blob_saveEffect (ls0 : Storage) (w : World) :
  Forall (fun c => c.1 = STORAGE_KEY) (setItem_calls w) ->
  (forall k, k <> STORAGE_KEY -> localStorage w !! k = ls0 !! k) ->
  single_blob ls0 (saveEffect w).
Proof.
  intros Hcalls Hframe. split.
  - rewrite saveEffect_calls. apply Forall_app. split; [done|]. by repeat constructor.
  - rewrite saveEffect_storage. unfold setItem. apply lookup_insert_eq.
  - intros k Hk. rewrite saveEffect_storage. unfold setItem.
    rewrite lookup_insert_ne by done. by apply Hframe.
Qed.

Lemma single_blob_mount (innerWidth : float) (ls : Storage) (w : World) :
  mount innerWidth ls = Normal w -> single_blob ls w.
Proof.
  rewrite mount_unfold. cbv zeta.
  set (w0 := {| state := initial; localStorage := ls; setItem_calls := [] |}).
  assert (H0 : single_blob ls (saveEffect w0)).
  { apply single_blob_saveEffect; [constructor | done]. }
  destruct H0 as [Hk Hs Hf].
  destruct (loadEffect ls) as [parsed|].
  - destruct (render _); [|discriminate]. intros [= <-].
    apply single_blob_saveEffect; simpl; [exact Hk | exact Hf].
  - intros [= <-]. split; simpl; [exact Hk | | exact Hf].
    unfold handleResize. by destruct (innerWidth <? 768)%float.
Qed.

(** An event either leaves [restaurants] and the call log alone, or
    assigns a different [restaurants] and logs one call. *)
Lemma step_calls (e : event) (w w' : World) :
  step e w = Normal w' ->
  (restaurants (state w') = restaurants (state w)
   /\ localStorage w' = localStorage w
   /\ setItem_calls w' = setItem_calls w)
  \/ (restaurants (state w') <> restaurants (state w)
      /\ localStorage w'
         = <[STORAGE_KEY := saved_text (restaurants (state w'))]> (localStorage w)
      /\ setItem_calls w'
         = (setItem_calls w ++ [(STORAGE_KEY, saved_text (restaurants (state w')))])%list).
Proof.
  destruct e;
    try (simpl; intros [_ ->]%commit_Normal; left; simpl; repeat split; done).
  - intros (items & s' & Hspread & -> & _ & ->)%step_onSave.
    right. simpl. repeat split.
    destruct (restaurants (state w)) as [| |b|n|s|items'|props]; try discriminate.
    simpl in Hspread. injection Hspread as ->.
    intros [= Heq]. apply (f_equal length) in Heq. simpl in Heq. lia.
  - simpl. intros [_ ->]%commit_Normal. left. simpl. repeat split.
    apply handleResize_cells.
Qed.

Lemma single_blob_step (ls0 : Storage) (e : event) (w w' : World) :
  single_blob ls0 w -> step e w = Normal w' -> single_blob ls0 w'.
Proof.
  intros [Hk Hs Hf] Hstep.
  destruct (step_calls e w w' Hstep) as [(Hr & Hl & Hc)|(_ & Hl & Hc)].
  - split; rewrite ?Hr, ?Hl, ?Hc; done.
  - split.
    + rewrite Hc. apply Forall_app. split; [done|]. by repeat constructor.
    + rewrite Hl. apply lookup_insert_eq.
    + intros k Hne. rewrite Hl, lookup_insert_ne by done. by apply Hf.
Qed.

Lemma single_blob_run (ls0 : Storage) (es : list event) (w w' : World) :
  single_blob ls0 w -> run es w = Normal w' -> single_blob ls0 w'.
Proof.
  revert w. induction es as [|e es IH]; intros w Hinv; simpl.
  - by intros [= <-].
  - destruct (step e w) as [w1|err] eqn:Hstep; [|discriminate].
    apply IH. by eapply single_blob_step.
Qed.

(** A launch that returns mounted a world and ran the events from it. *)
Lemma launch_Normal (innerWidth : float) (ls : Storage) (es : list event) (w : World) :
  launch innerWidth ls es = Normal w <->
  exists w0, mount innerWidth ls = Normal w0 /\ run es w0 = Normal w.
Proof.
  unfold launch. destruct (mount innerWidth ls) as [w0|err]; split.
  - eauto.
  - by intros (? & [= <-] & ?).
  - discriminate.
  - by intros (? & ? & _).
Qed.

(** C3. The save effect is one [setItem] call, under ['gourmet_snap_data'],
    with [JSON.stringify] of the whole [restaurants] state.  An event that
    changes [restaurants] causes exactly one such call and an event that
    does not causes none.  Hence, from the mount on and through any
    events, every call ever made names that key, the entry holds the
    serialized current state, and no other key of the storage differs
    from what the browser held before. *)
Theorem localStorage_single_entry :
  (forall w : World,
      setItem_calls (saveEffect w)
      = (setItem_calls w
           ++ [(STORAGE_KEY,
                ToString (JSON_stringify (restaurants (state w))))])%list
      /\ localStorage (saveEffect w)
         = setItem STORAGE_KEY
             (ToString (JSON_stringify (restaurants (state w))))
             (localStorage w))
  /\ (forall (e : event) (w w' : World),
        step e w = Normal w' ->
        (restaurants (state w') <> restaurants (state w) ->
         exists call, setItem_calls w' = (setItem_calls w ++ [call])%list
                      /\ call = (STORAGE_KEY,
                                 ToString
                                   (JSON_stringify (restaurants (state w')))))
        /\ (restaurants (state w') = restaurants (state w) ->
            setItem_calls w' = setItem_calls w))
  /\ (forall (innerWidth : float) (ls : Storage) (es : list event) (w : World),
        launch innerWidth ls es = Normal w ->
        Forall (fun call => call.1 = "gourmet_snap_data") (setItem_calls w)
        /\ localStorage w !! "gourmet_snap_data"
           = Some (ToString (JSON_stringify (restaurants (state w))))
        /\ (forall k, k <> "gourmet_snap_data" -> localStorage w !! k = ls !! k)).
Proof.
  split; [|split].
  - intros w. split; reflexivity.
  - intros e w w' Hstep.
    destruct (step_calls e w w' Hstep) as [(Hr & _ & Hc)|(Hr & _ & Hc)].
    + split; [congruence | done].
    + split; [eauto | congruence].
  - intros innerWidth ls es w (w0 & Hmount & Hrun)%launch_Normal.
    destruct (single_blob_run ls es _ w (single_blob_mount _ _ _ Hmount) Hrun)
      as [Hk Hs Hf].
    done.
Qed.

End AppProofs.

(* ===================================================================== *)
(** * Rendering typed records                                             *)
(* ===================================================================== *)

Module RenderingProofs.
Import JS Types.

Lemma each_Normal {A : Type} (f : A -> completion unit) (l : list A) :
  Forall (fun x => f x = Normal tt) l -> Rendering.each f l = Normal tt.
Proof. induction 1 as [|x l Hx _ IH]; simpl; [reflexivity|]. by rewrite Hx. Qed.

Lemma Country_value_plain (c : Country) : inherited (Country_value c) = false.
Proof. by destruct c. Qed.

(** A typed record passes the grouping unless its city bears an inherited
    name. *)
Lemma grouping_round_typed (r : Restaurant) :
  Rendering.grouping_round (Restaurant_value r)
  = if inherited (city r)
    then Throw (TypeError "g[r.country][r.city].push is not a function")
    else Normal tt.
Proof.
  unfold Rendering.grouping_round. simpl. by rewrite Country_value_plain.
Qed.

Lemma children_strings (l : list string) :
  Rendering.each Rendering.child (map Str l) = Normal tt.
Proof. apply each_Normal, Forall_map, Forall_true. done. Qed.

Lemma shown_tags_typed (r : Restaurant) :
  Rendering.shown_tags (Restaurant_value r) = Normal (map Str (take 3 (tags r))).
Proof. unfold Rendering.shown_tags. simpl. by rewrite <- fmap_take. Qed.

Lemma card_children_typed (r : Restaurant) :
  Rendering.card_children (Restaurant_value r) = Normal tt.
Proof.
  unfold Rendering.card_children.
  change (getProp (Restaurant_value r) "name") with (Normal (A := value) (Str (name r))).
  change (getProp (Restaurant_value r) "district")
    with (Normal (A := value) (Str (district r))).
  change (getProp (Restaurant_value r) "description")
    with (Normal (A := value) (Str (description r))).
  rewrite shown_tags_typed. simpl. apply children_strings.
Qed.

(** The list view renders a typed list whose cities are ordinary names. *)
Lemma RestaurantList_typed (rs : list Restaurant) :
  Forall (fun r => inherited (city r) = false) rs ->
  Rendering.RestaurantList (Restaurants_value rs) = Normal tt.
Proof.
  intros Hrs. unfold Rendering.RestaurantList, Restaurants_value.
  rewrite each_Normal; simpl.
  - rewrite each_Normal; simpl.
    + apply each_Normal, Forall_map, Forall_true. apply card_children_typed.
    + apply Forall_map, Forall_true. intros r. by rewrite shown_tags_typed.
  - apply Forall_map. eapply Forall_impl; [exact Hrs|].
    intros r Hr. simpl. by rewrite grouping_round_typed, Hr.
Qed.

(** It throws as soon as one city bears an inherited name. *)
Lemma RestaurantList_inherited_city (rs : list Restaurant) :
  Exists (fun r => inherited (city r) = true) rs ->
  Rendering.RestaurantList (Restaurants_value rs)
  = Throw (TypeError "g[r.country][r.city].push is not a function").
Proof.
  intros Hrs. unfold Rendering.RestaurantList, Restaurants_value.
  assert (Hgroup : Rendering.each Rendering.grouping_round (map Restaurant_value rs)
                   = Throw (TypeError "g[r.country][r.city].push is not a function")).
  { induction Hrs as [r rs Hr|r rs _ IH]; cbn [map Rendering.each].
    - by rewrite grouping_round_typed, Hr.
    - rewrite grouping_round_typed. by destruct (inherited (city r)). }
  by rewrite Hgroup.
Qed.

(** The selected card of a typed record renders. *)
Lemma overlay_typed (r : Restaurant) :
  Rendering.overlay (Some (Restaurant_value r)) = Normal tt.
Proof. reflexivity. Qed.

Lemma overlay_children_typed (r : Restaurant) :
  Rendering.overlay_children (Some (Restaurant_value r)) = Normal tt.
Proof.
  unfold Rendering.overlay_children. cbn [Runtime.truthy Restaurant_value].
  change (getProp (Restaurant_value r) "name") with (Normal (A := value) (Str (name r))).
  change (getProp (Restaurant_value r) "city") with (Normal (A := value) (Str (city r))).
  change (getProp (Restaurant_value r) "district")
    with (Normal (A := value) (Str (district r))).
  change (getProp (Restaurant_value r) "description")
    with (Normal (A := value) (Str (description r))).
  change (getProp (Restaurant_value r) "tags")
    with (Normal (A := value) (Arr (map Str (tags r)))).
  simpl. apply children_strings.
Qed.

(** A state that lists typed records with ordinary cities, and has one of
    them or none selected, renders. *)
Lemma render_typed (s : App.State) (rs : list Restaurant) :
  Forall (fun r => inherited (city r) = false) rs ->
  App.restaurants s = Restaurants_value rs ->
  (App.selectedRestaurant s = None
   \/ exists r, App.selectedRestaurant s = Some (Restaurant_value r)) ->
  App.render s = Normal tt.
Proof.
  intros Hrs Hlist Hsel. unfold App.render, Rendering.App.
  rewrite Hlist, (RestaurantList_typed rs Hrs).
  destruct Hsel as [-> | [r ->]]; [reflexivity|].
  rewrite overlay_typed. simpl. apply overlay_children_typed.
Qed.

End RenderingProofs.

(* ===================================================================== *)
(** * Persistence across a reload                                         *)
(* ===================================================================== *)

Module PersistenceProofs.
Import JS Types App Samples.

(** ** Numbers *)

Lemma is_zero_cases (n : float) :
  PrimFloat.is_zero n = true -> n = 0%float \/ n = (-0)%float.
Proof.
  unfold PrimFloat.is_zero. rewrite FloatAxioms.eqb_spec.
  rewrite <- (FloatAxioms.SF2Prim_Prim2SF n) at 2 3.
  destruct (FloatOps.Prim2SF n) as [[|]|[|]| |[|] m e]; simpl;
    try discriminate; intros _; [right|left]; reflexivity.
Qed.

Lemma storable_number_json (n : float) :
  storable_number n = true ->
  (if isFinite n
   then JsonNumber (if PrimFloat.is_zero n then 0%float else n)
   else JsonNull) = JsonNumber n.
Proof.
  unfold storable_number. intros [Hfin Hsign]%andb_prop.
  rewrite Hfin. f_equal.
  destruct (PrimFloat.is_zero n) eqn:Hz; [|reflexivity].
  destruct (is_zero_cases n Hz) as [-> | ->]; [reflexivity|].
  vm_compute in Hsign. discriminate.
Qed.

(** ** Records *)

Lemma serialize_tags (tags : list string) :
  map (fun x => default JsonNull (serialize x)) (map Str tags) = map JsonString tags.
Proof. induction tags as [|t tags IH]; simpl; [reflexivity | by rewrite IH]. Qed.

Lemma revive_tags (tags : list string) :
  map revive (map JsonString tags) = map Str tags.
Proof. induction tags as [|t tags IH]; simpl; [reflexivity | by rewrite IH]. Qed.

Lemma serialize_Restaurant (r : Restaurant) :
  storable r = true -> serialize (Restaurant_value r) = Some (Restaurant_json r).
Proof.
  unfold storable. intros [[Hlat Hlng]%andb_prop Hat]%andb_prop.
  apply storable_number_json in Hlat, Hlng, Hat.
  unfold Restaurant_value, Coordinates_value, Restaurant_json.
  cbn [serialize omap list_omap fst snd].
  rewrite Hlat, Hlng, Hat, serialize_tags. reflexivity.
Qed.

Lemma revive_Restaurant (r : Restaurant) :
  revive (Restaurant_json r) = Restaurant_value r.
Proof.
  unfold Restaurant_json, Restaurant_value, Coordinates_value.
  cbn. by rewrite revive_tags.
Qed.

Lemma roundtrip_elements (rs : list Restaurant) :
  Forall (fun r => storable r = true) rs ->
  map revive (map (fun x => default JsonNull (serialize x)) (map Restaurant_value rs))
  = map Restaurant_value rs.
Proof.
  induction 1 as [|r rs Hr _ IH]; [reflexivity|].
  cbn [map]. rewrite IH, (serialize_Restaurant r Hr). cbn [from_option Datatypes.id].
  by rewrite revive_Restaurant.
Qed.

(** [JSON.parse(JSON.stringify(restaurants))] on storable records. *)
Lemma parse_stringify (rs : list Restaurant) :
  Forall (fun r => storable r = true) rs ->
  exists saved, JSON_stringify (Restaurants_value rs) = Some saved
                /\ JSON_parse saved = Normal (Restaurants_value rs).
Proof.
  intros Hrs.
  exists (JSONText (JsonArray (map (fun x => default JsonNull (serialize x))
                                 (map Restaurant_value rs)))).
  split; [reflexivity|].
  unfold Restaurants_value, JSON_parse. cbn [revive].
  by rewrite (roundtrip_elements rs Hrs).
Qed.

(** The statement of C4 fails as it stands: the record whose latitude is
    [Infinity] is stored with latitude [null], and the list a reload
    yields is not the list that was saved. *)
Lemma reload_loses_infinity :
  exists reloaded,
    mount 1280 (localStorage (saveEffect (holding (Restaurants_value [off_the_map]) ∅)))
    = Normal reloaded
    /\ restaurants (state reloaded) <> Restaurants_value [off_the_map].
Proof.
  eexists. split; [reflexivity|]. vm_compute. discriminate.
Qed.

(** What the load effect reads from a storage that holds the text of a
    storable list. *)
Lemma load_typed (rs : list Restaurant) (ls : Storage) :
  Forall (fun r => storable r = true) rs ->
  ls !! STORAGE_KEY = Some (saved_text (Restaurants_value rs)) ->
  loadEffect ls = Some (Restaurants_value rs).
Proof.
  intros Hrs Hls.
  unfold loadEffect, getItem. rewrite Hls. unfold saved_text.
  destruct (parse_stringify rs Hrs) as (saved & -> & Hparse).
  destruct saved as [doc|s]; [|discriminate Hparse].
  change (ToString (Some (JSONText doc))) with (JSONText doc).
  cbn [truthy_text]. by rewrite Hparse.
Qed.

(** The mount on such a storage: the render that follows the load decides. *)
Lemma mount_typed (rs : list Restaurant) (innerWidth : float) (ls : Storage) :
  Forall (fun r => storable r = true) rs ->
  ls !! STORAGE_KEY = Some (saved_text (Restaurants_value rs)) ->
  mount innerWidth ls
  = match Rendering.RestaurantList (Restaurants_value rs) with
    | Normal _ =>
        Normal (saveEffect
                  (with_state
                     (saveEffect {| state := initial; localStorage := ls;
                                    setItem_calls := [] |})
                     (setRestaurants (Restaurants_value rs)
                        (handleResize innerWidth initial))))
    | Throw err => Throw err
    end.
Proof.
  intros Hrs Hls. rewrite AppProofs.mount_unfold, (load_typed rs ls Hrs Hls). cbv zeta.
  rewrite AppProofs.render_unselected by apply AppProofs.handleResize_cells.
  reflexivity.
Qed.

Lemma saved_entry (v : value) (w : World) :
  restaurants (state w) = v ->
  localStorage (saveEffect w) !! STORAGE_KEY = Some (saved_text v).
Proof. intros <-. rewrite AppProofs.saveEffect_storage. apply lookup_insert_eq. Qed.

(** Nor does a stored list survive whose numbers are fine but one of whose
    cities bears an inherited name: the render that follows the load
    throws and the application is gone. *)
Lemma reload_crashes_on_inherited_city (rs : list Restaurant) (innerWidth : float)
    (w : World) :
  Forall (fun r => storable r = true) rs ->
  Exists (fun r => inherited (city r) = true) rs ->
  restaurants (state w) = Restaurants_value rs ->
  mount innerWidth (localStorage (saveEffect w))
  = Throw (TypeError "g[r.country][r.city].push is not a function").
Proof.
  intros Hrs Hcity Hw. rewrite (mount_typed rs innerWidth _ Hrs (saved_entry _ w Hw)).
  by rewrite (RenderingProofs.RestaurantList_inherited_city rs Hcity).
Qed.

Lemma reload_crashes_on_constructor_cafe :
  mount 1280
    (localStorage (saveEffect (holding (Restaurants_value [constructor_cafe]) ∅)))
  = Throw (TypeError "g[r.country][r.city].push is not a function").
Proof.
  apply (reload_crashes_on_inherited_city [constructor_cafe]).
  - repeat constructor.
  - by constructor.
  - reflexivity.
Qed.

(** C4, amended. For every list of restaurants whose latitude, longitude
    and creation time are finite numbers other than negative zero and
    whose cities the list view can group: once the save effect has stored
    the list, mounting the application afresh on that storage returns,
    with [restaurants] equal to the list, and the storage entry again
    holds the serialized list. *)
Theorem reload_roundtrip (rs : list Restaurant) (innerWidth : float) (w : World) :
  Forall (fun r => storable r = true) rs ->
  Forall (fun r => inherited (city r) = false) rs ->
  restaurants (state w) = Restaurants_value rs ->
  exists reloaded,
    mount innerWidth (localStorage (saveEffect w)) = Normal reloaded
    /\ restaurants (state reloaded) = Restaurants_value rs
    /\ localStorage reloaded !! STORAGE_KEY = localStorage (saveEffect w) !! STORAGE_KEY.
Proof.
  intros Hrs Hcities Hw.
  rewrite (mount_typed rs innerWidth _ Hrs (saved_entry _ w Hw)).
  rewrite (RenderingProofs.RestaurantList_typed rs Hcities).
  eexists. split; [reflexivity|]. split; [reflexivity|].
  cbn. unfold setItem. rewrite !lookup_insert_eq. by rewrite Hw.
Qed.

Lemma reload_roundtrip_witness :
  exists reloaded,
    mount 1280
      (localStorage (saveEffect (holding (Restaurants_value [ichiran; gwangjang]) ∅)))
    = Normal reloaded
    /\ restaurants (state reloaded) = Restaurants_value [ichiran; gwangjang].
Proof.
  destruct (reload_roundtrip [ichiran; gwangjang] 1280%float
              (holding (Restaurants_value [ichiran; gwangjang]) ∅))
    as (reloaded & Hmount & Hlist & _).
  - repeat constructor.
  - repeat constructor.
  - reflexivity.
  - exists reloaded. by split.
Defined.

End PersistenceProofs.

(* ===================================================================== *)
(** * Properties of the list view's grouping                              *)
(* ===================================================================== *)

Module RestaurantListProofs.
Import Types RestaurantList Samples.

Lemma Country_value_own (c : Country) : JS.inherited (Country_value c) = false.
Proof. by destruct c. Qed.

Lemma belongs_spec (country city : string) (r : Restaurant) :
  belongs country city r = true
  <-> Country_value (Types.country r) = country /\ Types.city r = city.
Proof.
  unfold belongs. rewrite andb_true_iff, !String.eqb_eq. tauto.
Qed.

Lemma bucket_insert (g : Grouped) (c : string) (cities : Cities)
    (country city : string) :
  bucket (<[c := cities]> g) country city
  = if decide (c = country) then default [] (cities !! city) else bucket g country city.
Proof.
  unfold bucket. rewrite lookup_insert. by case_decide.
Qed.

(** One round of the loop on a restaurant whose city is an ordinary name:
    the restaurant goes to the end of its own bucket, and no other bucket
    changes. *)
Lemma add_bucket (g : Grouped) (r : Restaurant) :
  JS.inherited (city r) = false ->
  exists g', add g r = built g'
    /\ forall country city,
         bucket g' country city
         = (bucket g country city ++ if belongs country city r then [r] else [])%list.
Proof.
  intros Hcity. unfold add, ensure.
  rewrite Country_value_own, Hcity.
  set (c := Country_value (country r)).
  assert (Hbelongs : forall country city,
             belongs country city r
             = bool_decide (c = country) && bool_decide (Types.city r = city)).
  { intros country0 city0. apply eq_true_iff_eq.
    rewrite belongs_spec, andb_true_iff, !bool_decide_eq_true. done. }
  assert (Hgoal : forall (g1 : Grouped) (cities1 : Cities) (spots : list Restaurant),
             (forall country0, country0 <> c -> g1 !! country0 = g !! country0) ->
             (forall city0, city0 <> city r ->
                cities1 !! city0 = g !! c ≫= (.!! city0)) ->
             spots = bucket g c (city r) ->
             forall country0 city0,
               bucket (<[c := <[city r := (spots ++ [r])%list]> cities1]> g1) country0 city0
               = (bucket g country0 city0
                    ++ if belongs country0 city0 r then [r] else [])%list).
  { intros g1 cities1 spots Hg1 Hcities1 -> country0 city0.
    rewrite bucket_insert, Hbelongs.
    case_decide as Hc.
    - subst country0. rewrite bool_decide_eq_true_2 by done. simpl.
      rewrite lookup_insert. case_decide as Hcy.
      + subst city0. by rewrite bool_decide_eq_true_2.
      + rewrite bool_decide_eq_false_2, app_nil_r by done.
        unfold bucket. by rewrite Hcities1.
    - rewrite bool_decide_eq_false_2, app_nil_r by done.
      unfold bucket. by rewrite Hg1. }
  destruct (g !! c) as [cities|] eqn:Hg.
  - destruct (cities !! city r) as [spots|] eqn:Hspots;
      (eexists; split; [reflexivity|]); apply Hgoal.
    + done.
    + intros city0 _. by rewrite ?Hg.
    + unfold bucket. by rewrite ?Hg; simpl; rewrite Hspots.
    + done.
    + intros city0 Hne. rewrite ?Hg. simpl. by rewrite lookup_insert_ne.
    + unfold bucket. by rewrite ?Hg; simpl; rewrite Hspots.
  - eexists; split; [reflexivity|]. apply Hgoal.
    + intros country0 Hne. by rewrite lookup_insert_ne.
    + intros city0 Hne. rewrite ?Hg. simpl. by rewrite lookup_insert_ne, lookup_empty.
    + unfold bucket. by rewrite ?Hg.
Qed.

Lemma forEach_bucket (restaurants : list Restaurant) (g : Grouped) :
  Forall (fun r => JS.inherited (city r) = false) restaurants ->
  exists g', forEach restaurants g = built g'
    /\ forall country city,
         bucket g' country city
         = (bucket g country city ++ List.filter (belongs country city) restaurants)%list.
Proof.
  intros Hall. revert g.
  induction Hall as [|r rest Hr _ IH]; intros g; simpl.
  - exists g. split; [reflexivity|]. intros. by rewrite app_nil_r.
  - destruct (add_bucket g r Hr) as (g1 & -> & H1).
    destruct (IH g1) as (g' & -> & H').
    exists g'. split; [reflexivity|]. intros country0 city0.
    rewrite H', H1, <- app_assoc. by destruct (belongs country0 city0 r).
Qed.

(** The grouping of a list none of whose cities bears the name of a
    member of [Object.prototype]: the bucket of every (country, city) pair
    is the sub-list of the restaurants with that country and city, in
    input order; so each restaurant sits in the bucket of its own fields,
    once, and in no other. *)
Lemma grouped_partitions (restaurants : list Restaurant) :
  Forall (fun r => JS.inherited (city r) = false) restaurants ->
  exists g, grouped restaurants = built g
    /\ forall country city,
         bucket g country city = List.filter (belongs country city) restaurants.
Proof.
  intros Hall. destruct (forEach_bucket restaurants ∅ Hall) as (g & Hg & Hb).
  exists g. split; [exact Hg|]. intros country0 city0.
  rewrite Hb. unfold bucket. by rewrite lookup_empty.
Qed.

(** Every restaurant is in the bucket its own fields name, and in no
    other; a bucket holds a restaurant as often as the list does. *)
Lemma grouped_own_bucket (restaurants : list Restaurant) (g : Grouped) (r : Restaurant) :
  Forall (fun r => JS.inherited (city r) = false) restaurants ->
  grouped restaurants = built g ->
  r ∈ restaurants ->
  r ∈ bucket g (Country_value (country r)) (city r)
  /\ (forall country city, r ∈ bucket g country city ->
        country = Country_value (Types.country r) /\ city = Types.city r).
Proof.
  intros Hall Hg Hr.
  destruct (grouped_partitions restaurants Hall) as (g' & Hg' & Hb).
  rewrite Hg in Hg'. injection Hg' as <-.
  split.
  - rewrite Hb. apply list_elem_of_In, List.filter_In. split.
    + by apply list_elem_of_In.
    + by apply belongs_spec.
  - intros country0 city0. rewrite Hb.
    intros [_ Hin]%list_elem_of_In%List.filter_In.
    apply belongs_spec in Hin as [<- <-]. done.
Qed.

Lemma add_own_names_plain (g g' : Grouped) (r : Restaurant) :
  own_names_plain g -> add g r = built g' -> own_names_plain g'.
Proof.
  intros Hplain. unfold add, ensure. rewrite Country_value_own.
  set (c := Country_value (country r)).
  assert (Hstore : forall (g1 : Grouped) (cities1 : Cities) spots,
             own_names_plain g1 ->
             (forall city, is_Some (cities1 !! city) -> JS.inherited city = false) ->
             JS.inherited (city r) = false ->
             own_names_plain (<[c := <[city r := spots]> cities1]> g1)).
  { intros g1 cities1 spots Hg1 Hcities1 Hr country0 cities0 city0.
    rewrite lookup_insert. case_decide as Hc.
    - intros [= <-]. rewrite lookup_insert. case_decide as Hcy; [by subst|].
      apply Hcities1.
    - apply Hg1. }
  destruct (g !! c) as [cities|] eqn:Hg.
  - destruct (cities !! city r) as [spots|] eqn:Hspots.
    + intros [= <-]. apply Hstore; [done | intros city0; by eapply Hplain | ].
      eapply Hplain; [exact Hg | by rewrite Hspots].
    + destruct (JS.inherited (city r)) eqn:Hcity; [discriminate|].
      intros [= <-]. apply Hstore; [done | | done].
      intros city0. rewrite lookup_insert. case_decide; [by subst|].
      by eapply Hplain.
  - destruct (JS.inherited (city r)) eqn:Hcity; [discriminate|].
    intros [= <-]. apply Hstore; [ | | done].
    + intros country0 cities0 city0. rewrite lookup_insert.
      case_decide; [|by apply Hplain].
      intros [= <-]. rewrite lookup_empty. by intros [? ?].
    + intros city0. rewrite lookup_insert. case_decide; [by subst|].
      rewrite lookup_empty. by intros [? ?].
Qed.

Lemma add_inherited_city (g : Grouped) (r : Restaurant) :
  own_names_plain g -> JS.inherited (city r) = true ->
  add g r = threw (JS.TypeError "g[r.country][r.city].push is not a function").
Proof.
  intros Hplain Hcity. unfold add, ensure. rewrite Country_value_own.
  destruct (g !! Country_value (country r)) as [cities|] eqn:Hg.
  - destruct (cities !! city r) as [spots|] eqn:Hspots.
    + assert (JS.inherited (city r) = false); [|congruence].
      eapply Hplain; [exact Hg | by rewrite Hspots].
    + by rewrite Hcity.
  - by rewrite lookup_empty, Hcity.
Qed.

Lemma forEach_inherited_city (restaurants : list Restaurant) (g : Grouped) :
  own_names_plain g ->
  Exists (fun r => JS.inherited (city r) = true) restaurants ->
  forEach restaurants g
  = threw (JS.TypeError "g[r.country][r.city].push is not a function").
Proof.
  intros Hplain Hex. revert g Hplain.
  induction restaurants as [|r rest IH]; intros g Hplain; [by inversion Hex|].
  simpl. destruct (JS.inherited (city r)) eqn:Hcity.
  - by rewrite add_inherited_city.
  - destruct (add_bucket g r Hcity) as (g1 & Hadd & _). rewrite Hadd.
    apply IH.
    + inversion Hex as [? ? Hhead|]; [congruence | done].
    + by eapply add_own_names_plain.
Qed.

(** As soon as one city of the list bears the name of a member of
    [Object.prototype], the grouping throws and no bucket is rendered. *)
Lemma grouped_inherited_city (restaurants : list Restaurant) :
  Exists (fun r => JS.inherited (city r) = true) restaurants ->
  grouped restaurants
  = threw (JS.TypeError "g[r.country][r.city].push is not a function").
Proof.
  apply forEach_inherited_city.
  intros country0 cities0 city0. by rewrite lookup_empty.
Qed.

(** C5, where the code departs from it. For the list that holds the one
    restaurant above, the loop finds [g["Japan"]["constructor"]] already
    truthy (the inherited [Object]), skips the initialisation, and calls
    a [push] that does not exist: the grouping throws, and the restaurant
    is in no bucket. *)
Theorem grouped_throws_on_inherited_city :
  grouped [constructor_cafe]
  = threw (JS.TypeError "g[r.country][r.city].push is not a function").
Proof. vm_compute. reflexivity. Qed.

(** The same with saved records before and after it: nothing is rendered. *)
Lemma grouped_throws_amid_others :
  grouped [ichiran; constructor_cafe; gwangjang]
  = threw (JS.TypeError "g[r.country][r.city].push is not a function").
Proof. vm_compute. reflexivity. Qed.

Lemma grouped_partitions_witness :
  exists g, grouped [ichiran; gwangjang;
                     ichiran] = built g
    /\ bucket g "Japan" "Fukuoka" = [ichiran; ichiran]
    /\ bucket g "South Korea" "Seoul" = [gwangjang]
    /\ bucket g "Japan" "Seoul" = [].
Proof.
  destruct (grouped_partitions
              [ichiran; gwangjang;
               ichiran])
    as (g & Hg & Hb); [by repeat constructor|].
  exists g. split; [exact Hg|]. by rewrite !Hb.
Defined.

End RestaurantListProofs.

(* ===================================================================== *)
(** * Properties of the map's drawing                                     *)
(* ===================================================================== *)

Module MapVisualizationProofs.
Import Types MapVisualization Samples.

Section WithD3.

Variable geoMercator : Projection -> float * float -> option (float * float).
Variable Feature : Type.
Variable geoPath : Projection -> Feature -> option string.

Abbreviation position := (position geoMercator).
Abbreviation placeGroup := (placeGroup geoMercator).
Abbreviation selectionRing := (selectionRing geoMercator).
Abbreviation pointsGroup := (pointsGroup geoMercator).
Abbreviation landmass := (landmass Feature geoPath).
Abbreviation mapContent := (mapContent geoMercator Feature geoPath).
Abbreviation draw := (draw geoMercator Feature geoPath).

Lemma elements_unfold (n : node) :
  elements n = n :: flat_map elements (children n).
Proof. by destruct n. Qed.

(** Elements that have no children are their own only element. *)
Lemma elements_leaves {A} (f : A -> node) (l : list A) :
  (forall a, children (f a) = []) ->
  flat_map elements (map f l) = map f l.
Proof.
  intros Hleaf. induction l as [|a l IH]; [reflexivity|].
  cbn [map flat_map]. by rewrite elements_unfold, Hleaf, IH.
Qed.

Lemma filter_none {A B} (keep : B -> bool) (f : A -> B) (l : list A) :
  (forall a, keep (f a) = false) -> List.filter keep (map f l) = [].
Proof.
  intros Hdrop. induction l as [|a l IH]; simpl; [reflexivity|].
  by rewrite Hdrop.
Qed.

Lemma elements_placeGroup (p : Projection) (selected : option Restaurant)
    (d : Restaurant) :
  elements (placeGroup p selected d)
  = [placeGroup p selected d; dot selected d; placeLabel d; districtLabel d].
Proof.
  unfold MapVisualization.placeGroup. by destruct (position p d).
Qed.

Lemma elements_selectionRing (p : Projection) (s : Restaurant) :
  exists animate,
    elements (selectionRing p s) = [selectionRing p s; animate]
    /\ tag animate = "animate" /\ class_of animate = None
    /\ tag (selectionRing p s) = "circle" /\ class_of (selectionRing p s) = None.
Proof.
  unfold MapVisualization.selectionRing. destruct (position p s).
  eexists. repeat split.
Qed.

Lemma tag_placeGroup (p : Projection) (selected : option Restaurant) (d : Restaurant) :
  tag (placeGroup p selected d) = "g"
  /\ is_place_group (placeGroup p selected d) = true.
Proof.
  unfold MapVisualization.placeGroup. by destruct (position p d).
Qed.

Lemma unclassed_not_place_group (n : node) :
  class_of n = None -> is_place_group n = false.
Proof. unfold is_place_group. by intros ->. Qed.

(** Selecting among the elements of the entered place groups. *)
Lemma filter_placeGroups (keep : node -> bool) (p : Projection)
    (selected : option Restaurant) (restaurants : list Restaurant) :
  List.filter keep (flat_map elements (map (placeGroup p selected) restaurants))
  = flat_map (fun d => List.filter keep
                         [placeGroup p selected d; dot selected d;
                          placeLabel d; districtLabel d])
      restaurants.
Proof.
  induction restaurants as [|d rest IH]; [reflexivity|].
  cbn [map flat_map]. rewrite List.filter_app, IH, elements_placeGroup. reflexivity.
Qed.

(** Every element below the root group, layer by layer. *)
Lemma elements_mapContent (dimensions : Dimensions) (geoData : option (list Feature))
    (restaurants : list Restaurant) (selected : option Restaurant) :
  let p := projection_of dimensions in
  elements (mapContent dimensions geoData restaurants selected)
  = (mapContent dimensions geoData restaurants selected
     :: match geoData with
        | Some features =>
            mkNode "g" [] [] None (map (landmass p) features) :: map (landmass p) features
        | None => []
        end
     ++ map (countryLabel geoMercator p) countryLabels
     ++ map (cityRef geoMercator p) referencePoints
     ++ pointsGroup p restaurants selected
     :: match selected with
        | Some s => elements (selectionRing p s)
        | None => []
        end
     ++ flat_map elements (map (placeGroup p selected) restaurants))%list.
Proof.
  intros p. unfold MapVisualization.mapContent. fold p.
  cbn [elements children]. f_equal.
  rewrite !flat_map_app.
  rewrite (elements_leaves (countryLabel geoMercator p)) by reflexivity.
  rewrite (elements_leaves (cityRef geoMercator p)) by reflexivity.
  f_equal; [|f_equal; f_equal].
  - destruct geoData as [features|]; [|reflexivity].
    cbn [flat_map elements children]. rewrite app_nil_r.
    by rewrite (elements_leaves (landmass p)).
  - cbn [flat_map elements children MapVisualization.pointsGroup]. rewrite app_nil_r.
    f_equal. rewrite flat_map_app. f_equal.
    destruct selected; [|reflexivity]. cbn [flat_map]. by rewrite app_nil_r.
Qed.

(** What a selector keeps of the whole drawing, given what it keeps of
    the fixed layers. *)
Lemma filter_mapContent (keep : node -> bool) (dimensions : Dimensions)
    (geoData : option (list Feature)) (restaurants : list Restaurant)
    (selected : option Restaurant) :
  (forall n, class_of n = None -> tag n = "g" -> keep n = false) ->
  (forall p f, keep (landmass p f) = false) ->
  (forall p l, keep (countryLabel geoMercator p l) = false) ->
  (forall p l, keep (cityRef geoMercator p l) = false) ->
  let p := projection_of dimensions in
  List.filter keep (elements (mapContent dimensions geoData restaurants selected))
  = (match selected with
     | Some s => List.filter keep (elements (selectionRing p s))
     | None => []
     end
     ++ flat_map (fun d => List.filter keep
                             [placeGroup p selected d; dot selected d;
                              placeLabel d; districtLabel d])
          restaurants)%list.
Proof.
  intros Hg Hland Hcountry Hcity p.
  rewrite elements_mapContent. fold p.
  cbn [List.filter]. rewrite (Hg (mapContent _ _ _ _)) by reflexivity.
  rewrite !List.filter_app.
  rewrite (filter_none keep (countryLabel geoMercator p)) by apply Hcountry.
  rewrite (filter_none keep (cityRef geoMercator p)) by apply Hcity.
  assert (Hlayer : List.filter keep
                     match geoData with
                     | Some features =>
                         mkNode "g" [] [] None (map (landmass p) features)
                         :: map (landmass p) features
                     | None => []
                     end = []).
  { destruct geoData as [features|]; [|reflexivity].
    cbn [List.filter]. rewrite (Hg (mkNode "g" [] [] None _)) by reflexivity.
    apply filter_none, Hland. }
  rewrite Hlayer. cbn [app List.filter].
  rewrite (Hg (pointsGroup p restaurants selected)) by reflexivity.
  rewrite List.filter_app, filter_placeGroups.
  by destruct selected.
Qed.

Lemma draw_ready (dimensions : Dimensions) (geoData : option (list Feature))
    (restaurants : list Restaurant) (selected : option Restaurant) (svg : list node) :
  (width dimensions =? 0)%float = false ->
  draw true dimensions geoData restaurants selected svg
  = [mapContent dimensions geoData restaurants selected].
Proof. unfold MapVisualization.draw. by intros ->. Qed.

(** The circles of the drawing: the ring of the selection, if any, then
    one dot per restaurant. *)
Lemma circles_draw (dimensions : Dimensions) (geoData : option (list Feature))
    (restaurants : list Restaurant) (selected : option Restaurant) (svg : list node) :
  (width dimensions =? 0)%float = false ->
  circles (draw true dimensions geoData restaurants selected svg)
  = (match selected with
     | Some s => [selectionRing (projection_of dimensions) s]
     | None => []
     end ++ map (dot selected) restaurants)%list.
Proof.
  intros Hwidth. rewrite draw_ready by exact Hwidth.
  unfold circles, all_elements. cbn [flat_map]. rewrite app_nil_r.
  rewrite filter_mapContent.
  - f_equal.
    + destruct selected as [s|]; [|reflexivity].
      destruct (elements_selectionRing (projection_of dimensions) s)
        as (animate & -> & Ha & _ & Hr & _).
      cbn [List.filter]. unfold is_tag. by rewrite Hr, Ha.
    + induction restaurants as [|d rest IH]; [reflexivity|].
      cbn [flat_map map]. rewrite IH. cbn [List.filter].
      unfold is_tag at 1. by destruct (tag_placeGroup (projection_of dimensions) selected d) as [-> _].
  - intros n _ Hn. unfold is_tag. by rewrite Hn.
  - reflexivity.
  - reflexivity.
  - reflexivity.
Qed.

(** The place groups of the drawing: one per restaurant, in list order. *)
Lemma place_groups_draw (dimensions : Dimensions) (geoData : option (list Feature))
    (restaurants : list Restaurant) (selected : option Restaurant) (svg : list node) :
  (width dimensions =? 0)%float = false ->
  place_groups (draw true dimensions geoData restaurants selected svg)
  = map (placeGroup (projection_of dimensions) selected) restaurants.
Proof.
  intros Hwidth. rewrite draw_ready by exact Hwidth.
  unfold place_groups, all_elements. cbn [flat_map]. rewrite app_nil_r.
  rewrite filter_mapContent.
  - destruct selected as [s|].
    + destruct (elements_selectionRing (projection_of dimensions) s)
        as (animate & -> & _ & Ha & _ & Hr).
      cbn [List.filter].
      rewrite (unclassed_not_place_group _ Hr), (unclassed_not_place_group _ Ha).
      cbn [app].
      induction restaurants as [|d rest IH]; [reflexivity|].
      cbn [flat_map map]. rewrite IH. cbn [List.filter].
      by destruct (tag_placeGroup (projection_of dimensions) (Some s) d) as [_ ->].
    + cbn [app].
      induction restaurants as [|d rest IH]; [reflexivity|].
      cbn [flat_map map]. rewrite IH. cbn [List.filter].
      by destruct (tag_placeGroup (projection_of dimensions) None d) as [_ ->].
  - intros n Hn _. by apply unclassed_not_place_group.
  - intros p f. apply unclassed_not_place_group.
    unfold class_of, MapVisualization.landmass. by destruct (geoPath p f).
  - reflexivity.
  - reflexivity.
Qed.

(** Without the element, or with a container of width 0, the effect
    returns at once and the [svg] keeps what it had. *)
Lemma draw_not_ready (svgRef_current : bool) (dimensions : Dimensions)
    (geoData : option (list Feature)) (restaurants : list Restaurant)
    (selected : option Restaurant) (svg : list node) :
  svgRef_current = false \/ (width dimensions =? 0)%float = true ->
  draw svgRef_current dimensions geoData restaurants selected svg = svg.
Proof.
  unfold MapVisualization.draw. intros [-> | ->]; [reflexivity|].
  by rewrite orb_true_r.
Qed.

(** C6, amended. Once the [svg] element is there and the container has a
    width other than 0, the drawing holds one place group per restaurant,
    in list order; each is translated to the point the Mercator projection
    centred on [135, 36] gives for the restaurant's [lng, lat] (to [0,0]
    when it gives none) and contains exactly one circle, the dot.  The
    circles of the whole drawing are these dots, preceded by the ring of
    the selected restaurant when there is one. *)
Theorem draw_pins (dimensions : Dimensions) (geoData : option (list Feature))
    (restaurants : list Restaurant) (selected : option Restaurant) (svg : list node) :
  (width dimensions =? 0)%float = false ->
  let p := projection_of dimensions in
  let drawn := draw true dimensions geoData restaurants selected svg in
  center p = (135, 36)%float
  /\ place_groups drawn = map (placeGroup p selected) restaurants
  /\ (forall d,
        getAttribute "transform" (placeGroup p selected d)
        = Some (translate
                  (default (0, 0)%float
                     (geoMercator p (lng (coordinates d), lat (coordinates d)))).1
                  (default (0, 0)%float
                     (geoMercator p (lng (coordinates d), lat (coordinates d)))).2)
        /\ circles [placeGroup p selected d] = [dot selected d])
  /\ circles drawn
     = (match selected with
        | Some s => [selectionRing p s]
        | None => []
        end ++ map (dot selected) restaurants)%list
  /\ length (circles drawn)
     = (length restaurants + match selected with Some _ => 1 | None => 0 end)%nat.
Proof.
  intros Hwidth p drawn.
  assert (Hcircles := circles_draw dimensions geoData restaurants selected svg Hwidth).
  fold drawn p in Hcircles.
  split; [reflexivity|]. split; [by apply place_groups_draw|].
  split; [|split; [exact Hcircles|]].
  - intros d. unfold circles, all_elements. cbn [flat_map].
    rewrite app_nil_r, elements_placeGroup.
    unfold MapVisualization.placeGroup, MapVisualization.position.
    by destruct (default _ _).
  - rewrite Hcircles, length_app, length_map.
    destruct selected; simpl; lia.
Qed.

End WithD3.

(** ** A concrete drawing *)

(** The statement of C6 fails as it stands: with the one saved restaurant
    selected, the drawing has two circles for it, the ring and the dot. *)
Lemma selected_restaurant_has_two_circles :
  length (circles (draw plate_carree unit no_path true desktop None
                     [ichiran] (Some ichiran) []))
  <> length [ichiran].
Proof. vm_compute. discriminate. Qed.

(** And on a container that has no width yet, no circle at all. *)
Lemma unsized_container_has_no_circle :
  circles (draw plate_carree unit no_path true {| width := 0; height := 0 |} None
             [ichiran] None [])
  = [].
Proof. reflexivity. Qed.

Lemma draw_pins_witness :
  place_groups (draw plate_carree unit no_path true desktop None
                  [ichiran; gwangjang]
                  (Some gwangjang) [])
  = map (placeGroup plate_carree (projection_of desktop) (Some gwangjang))
      [ichiran; gwangjang]
  /\ length (circles (draw plate_carree unit no_path true desktop None
                        [ichiran; gwangjang]
                        (Some gwangjang) []))
     = 3.
Proof.
  destruct (draw_pins plate_carree unit no_path desktop None
              [ichiran; gwangjang]
              (Some gwangjang) [] eq_refl)
    as (_ & Hgroups & _ & _ & Hcount).
  split; [exact Hgroups | exact Hcount].
Defined.

End MapVisualizationProofs.

(* ===================================================================== *)
(** * The App theorems at work                                            *)
(* ===================================================================== *)

Module AppWitnesses.
Import JS Types App AppProofs Samples.

Lemma handleSaveRestaurant_prepends_witness :
  (exists s', handleSaveRestaurant (Restaurant_value gwangjang)
                (setRestaurants (Restaurants_value [ichiran]) initial) = Normal s'
              /\ restaurants s' = Restaurants_value [gwangjang; ichiran])
  /\ (exists w',
        run (map onSave [Restaurant_value gwangjang; Restaurant_value off_the_map])
          (holding (Restaurants_value [ichiran]) ∅) = Normal w'
        /\ restaurants (state w')
           = Restaurants_value [off_the_map; gwangjang; ichiran]).
Proof.
  destruct (handleSaveRestaurant_prepends (Restaurant_value gwangjang)
              [Restaurant_value ichiran]
              (setRestaurants (Restaurants_value [ichiran]) initial) eq_refl)
    as [Hsave Hrun].
  split; [exact Hsave|].
  eexists. split; [reflexivity|].
  exact (Hrun [Restaurant_value gwangjang; Restaurant_value off_the_map]
           (holding (Restaurants_value [ichiran]) ∅) _ eq_refl eq_refl).
Defined.

Lemma mount_tolerates_corrupted_storage_witness :
  (exists w, mount 1280 corrupted = Normal w /\ restaurants (state w) = Arr [])
  /\ (exists w, mount 1280 other_site_data = Normal w /\ restaurants (state w) = Arr []).
Proof.
  split.
  - apply (proj1 (mount_tolerates_corrupted_storage 1280%float corrupted)).
    right. eexists. reflexivity.
  - apply (proj1 (mount_tolerates_corrupted_storage 1280%float other_site_data)).
    left. reflexivity.
Defined.

Lemma localStorage_single_entry_witness :
  exists w,
    launch 1280 other_site_data
      [clickAddSpot; onSave (Restaurant_value ichiran); onClose; clickTab tab_list]
    = Normal w
    /\ Forall (fun call => call.1 = "gourmet_snap_data") (setItem_calls w)
    /\ localStorage w !! "gourmet_snap_data"
       = Some (ToString (JSON_stringify (restaurants (state w))))
    /\ (forall k, k <> "gourmet_snap_data" -> localStorage w !! k = other_site_data !! k).
Proof.
  eexists. split; [reflexivity|].
  exact (proj2 (proj2 localStorage_single_entry) 1280%float other_site_data
           [clickAddSpot; onSave (Restaurant_value ichiran); onClose; clickTab tab_list]
           _ eq_refl).
Defined.

End AppWitnesses.

(* ===================================================================== *)
(** * Runs of the App component: what holds along the way                 *)
(* ===================================================================== *)

Module AppRunsProofs.
Import JS App AppRuns Samples.

(** ** The layout *)

Lemma viewMode_handleResize (innerWidth : float) (s : State) :
  viewMode (handleResize innerWidth s)
  = if (innerWidth <? 768)%float then view_list else view_split.
Proof. unfold handleResize. by destruct (innerWidth <? 768)%float. Qed.

Lemma viewMode_mount (innerWidth : float) (ls : Storage) (w : World) :
  mount innerWidth ls = Normal w ->
  viewMode (state w)
  = if (innerWidth <? 768)%float then view_list else view_split.
Proof.
  rewrite AppProofs.mount_unfold. cbv zeta. destruct (loadEffect ls).
  - destruct (render _); [|discriminate]. intros [= <-]. apply viewMode_handleResize.
  - intros [= <-]. apply viewMode_handleResize.
Qed.

Lemma viewMode_run (innerWidth : float) (es : list event) (w w' : World) :
  viewMode (state w) = (if (innerWidth <? 768)%float then view_list else view_split) ->
  run es w = Normal w' ->
  viewMode (state w')
  = if (last_width innerWidth es <? 768)%float then view_list else view_split.
Proof.
  revert innerWidth w. induction es as [|e es IH]; intros innerWidth w Hw; simpl.
  - by intros [= <-].
  - destruct (step e w) as [w1|err] eqn:Hstep; [|discriminate].
    destruct e;
      try (simpl in Hstep; apply AppProofs.commit_Normal in Hstep as [_ ->];
           apply IH; exact Hw).
    + apply AppProofs.step_onSave in Hstep as (items & s' & _ & -> & _ & ->).
      apply IH. exact Hw.
    + simpl in Hstep. apply AppProofs.commit_Normal in Hstep as [_ ->].
      apply IH. simpl. apply viewMode_handleResize.
Qed.

(** X9. The layout follows the window: after the mount and any events, the
    view mode is the one [handleResize] chose for the latest width, so it
    is the list below 768 pixels and the split view otherwise, and the
    third mode of its type, the map alone, is never entered. *)
Theorem viewMode_follows_width (innerWidth : float) (ls : Storage)
    (es : list event) (w : World) :
  launch innerWidth ls es = Normal w ->
  viewMode (state w)
  = (if (last_width innerWidth es <? 768)%float then view_list else view_split)
  /\ viewMode (state w) <> view_map.
Proof.
  intros (w0 & Hmount & Hrun)%AppProofs.launch_Normal.
  assert (H := viewMode_run innerWidth es _ w (viewMode_mount _ _ _ Hmount) Hrun).
  split; [exact H|]. rewrite H. by destruct (_ <? _)%float.
Qed.

Lemma viewMode_follows_width_witness :
  exists w,
    launch 1280 other_site_data
      [resize 500; onSave (Types.Restaurant_value ichiran); resize 1024; clickTab tab_list]
    = Normal w
    /\ viewMode (state w) = view_split.
Proof.
  eexists. split; [reflexivity|].
  exact (proj1 (viewMode_follows_width 1280%float other_site_data
                  [resize 500; onSave (Types.Restaurant_value ichiran); resize 1024;
                   clickTab tab_list] _ eq_refl)).
Defined.

(** ** The list along a run *)

Lemma step_onSave_array (restaurant : value) (items : list value) (w w' : World) :
  restaurants (state w) = Arr items ->
  step (onSave restaurant) w = Normal w' ->
  restaurants (state w') = Arr (restaurant :: items)
  /\ selectedRestaurant (state w') = Some restaurant
  /\ setItem_calls w'
     = (setItem_calls w
          ++ [(STORAGE_KEY, saved_text (Arr (restaurant :: items)))])%list.
Proof.
  intros Hw (items' & s' & Hspread & -> & _ & ->)%AppProofs.step_onSave.
  rewrite Hw in Hspread. injection Hspread as <-. by repeat split.
Qed.

Lemma step_other (e : event) (w w' : World) :
  (forall restaurant, e <> onSave restaurant) ->
  step e w = Normal w' ->
  restaurants (state w') = restaurants (state w)
  /\ localStorage w' = localStorage w
  /\ setItem_calls w' = setItem_calls w.
Proof.
  intros Hne.
  destruct e;
    try (simpl; intros [_ ->]%AppProofs.commit_Normal; by repeat split).
  - by destruct (Hne restaurant).
  - simpl. intros [_ ->]%AppProofs.commit_Normal. repeat split.
    apply AppProofs.handleResize_cells.
Qed.

(** X10. A run never loses a record: from any world whose [restaurants] is
    an array, whenever a sequence of events runs to its end, the array it
    leaves is the saved restaurants, newest first, ahead of the elements
    it started with, whatever other events came in between; storage was
    written once per save. *)
Theorem run_keeps_every_record (items : list value) (es : list event) (w w' : World) :
  restaurants (state w) = Arr items ->
  run es w = Normal w' ->
  restaurants (state w') = Arr (rev (saved_by es) ++ items)%list
  /\ length (setItem_calls w')
     = (length (setItem_calls w) + length (saved_by es))%nat.
Proof.
  revert items w. induction es as [|e es IH]; intros items w Hw.
  - intros [= <-]. simpl. split; [done | lia].
  - cbn [run]. destruct (step e w) as [w1|err] eqn:Hstep; [|discriminate].
    intros Hrun.
    destruct e; cycle 1;
      try (apply step_other in Hstep as (Hr & _ & Hc); [|done];
           destruct (IH items w1) as (Hrs & Hlen); [congruence | done |];
           cbn [saved_by]; rewrite <- Hc; done).
    destruct (step_onSave_array restaurant items w w1 Hw Hstep) as (Hr & _ & Hc).
    destruct (IH (restaurant :: items) w1 Hr Hrun) as (Hrs & Hlen).
    cbn [saved_by]. split.
    + rewrite Hrs. cbn [rev]. by rewrite <- app_assoc.
    + rewrite Hlen, Hc, length_app. simpl. lia.
Qed.

Lemma run_keeps_every_record_witness :
  exists w',
    run [onSave (Types.Restaurant_value ichiran); clickTab tab_list;
         onSave (Types.Restaurant_value gwangjang); resize 600]
      (holding (Arr []) corrupted) = Normal w'
    /\ restaurants (state w') = Types.Restaurants_value [gwangjang; ichiran]
    /\ length (setItem_calls w') = 2.
Proof.
  eexists. split; [reflexivity|].
  exact (run_keeps_every_record []
           [onSave (Types.Restaurant_value ichiran); clickTab tab_list;
            onSave (Types.Restaurant_value gwangjang); resize 600]
           (holding (Arr []) corrupted) _ eq_refl eq_refl).
Defined.

(** ** What the mount makes of the storage *)

(** X11. The stored JSON is handed to [setRestaurants] unchecked: a mount
    that returns holds the parsed value as its list, and that value is
    then an array; any other value (an object, a number, [null], a
    string) makes the render that follows the load throw a TypeError, so
    the mount does not return. *)
Theorem mount_takes_any_json (innerWidth : float) (ls : Storage) (doc : json) :
  getItem STORAGE_KEY ls = Some (JSONText doc) ->
  (forall w, mount innerWidth ls = Normal w ->
     restaurants (state w) = revive doc /\ exists items, revive doc = Arr items)
  /\ ((forall items, revive doc <> Arr items) ->
      exists message, mount innerWidth ls = Throw (TypeError message)).
Proof.
  intros Hget.
  assert (Hload : loadEffect ls = Some (revive doc)).
  { unfold loadEffect. by rewrite Hget. }
  assert (Hrender : forall s1 : State,
             selectedRestaurant s1 = None ->
             render (setRestaurants (revive doc) s1)
             = Rendering.RestaurantList (revive doc)).
  { intros s1 Hs1. by rewrite AppProofs.render_unselected. }
  assert (Hs1 : selectedRestaurant (handleResize innerWidth initial) = None)
    by apply AppProofs.handleResize_cells.
  split.
  - intros w Hmount. split.
    + by rewrite (AppProofs.mount_restaurants _ _ _ Hmount), Hload.
    + revert Hmount. rewrite AppProofs.mount_unfold, Hload. cbv zeta.
      rewrite (Hrender _ Hs1). destruct (revive doc); try discriminate. eauto.
  - intros Harr. rewrite AppProofs.mount_unfold, Hload. cbv zeta.
    rewrite (Hrender _ Hs1).
    destruct (revive doc) as [| |b|n|s|items|props]; simpl; eauto.
    by destruct (Harr items).
Qed.

(** ** Selection *)

Lemma listed_step (e : event) (w w' : World) (r : value) :
  step e w = Normal w' -> r ∈ listed w -> r ∈ listed w'.
Proof.
  intros Hstep Hr.
  assert (Hother : (forall restaurant, e <> onSave restaurant) -> r ∈ listed w').
  { intros Hne. destruct (step_other e w w' Hne Hstep) as (Hrs & _).
    unfold listed in *. by rewrite Hrs. }
  destruct e; try (apply Hother; done).
  clear Hother. unfold listed in Hr.
  destruct (restaurants (state w)) as [| |b|n|s|items|props] eqn:Hw;
    try by apply elem_of_nil in Hr.
  destruct (step_onSave_array restaurant items w w' Hw Hstep) as (Hrs & _).
  unfold listed. rewrite Hrs. by apply elem_of_cons; right.
Qed.

Lemma selection_listed_step (e : event) (w w' : World) :
  selection_listed w -> offered w e -> step e w = Normal w' -> selection_listed w'.
Proof.
  unfold selection_listed. intros Hsel Hoff Hstep.
  destruct e; simpl in Hoff;
    try (simpl in Hstep; apply AppProofs.commit_Normal in Hstep as [_ ->]).
  - apply AppProofs.step_onSave in Hstep as (items & s' & _ & -> & _ & ->).
    unfold listed. simpl. by apply elem_of_cons; left.
  - simpl. destruct (selectedRestaurant (state w)); done.
  - simpl. destruct (selectedRestaurant (state w)); done.
  - done.
  - done.
  - done.
  - simpl. destruct (selectedRestaurant (state w)); done.
  - unfold listed in *. simpl.
    unfold handleResize. by destruct (_ <? _)%float.
Qed.

Lemma selection_listed_run (es : list event) (w w' : World) :
  selection_listed w -> offered_run es w -> run es w = Normal w' ->
  selection_listed w'.
Proof.
  revert w. induction es as [|e es IH]; intros w Hsel Hoff; simpl.
  - by intros [= <-].
  - simpl in Hoff. destruct Hoff as [Hoff Hrest].
    destruct (step e w) as [w1|err] eqn:Hstep; [|discriminate].
    apply IH; [|exact Hrest]. by eapply selection_listed_step.
Qed.

Lemma selection_listed_mount (innerWidth : float) (ls : Storage) (w : World) :
  mount innerWidth ls = Normal w -> selection_listed w.
Proof.
  rewrite AppProofs.mount_unfold. cbv zeta. unfold selection_listed.
  destruct (loadEffect ls).
  - destruct (render _); [|discriminate]. intros [= <-]. simpl.
    unfold handleResize. by destruct (_ <? _)%float.
  - intros [= <-]. simpl. unfold handleResize. by destruct (_ <? _)%float.
Qed.

(** X13. The selection always refers to a saved record: from the mount on, as
    long as the list and the map select only restaurants they were given,
    the selected restaurant (the one the card overlay shows) is an
    element of the [restaurants] array, or there is none.  Nothing ever
    removes a record, and a save selects the record it adds. *)
Theorem selection_always_listed (innerWidth : float) (ls : Storage)
    (es : list event) (w0 w : World) :
  mount innerWidth ls = Normal w0 ->
  offered_run es w0 ->
  run es w0 = Normal w ->
  match selectedRestaurant (state w) with
  | Some r => r ∈ listed w
  | None => True
  end.
Proof.
  intros Hmount Hoff Hrun.
  apply (selection_listed_run es w0 w); [|done..].
  by eapply selection_listed_mount.
Qed.

Lemma selection_always_listed_witness :
  exists w0 w,
    mount 400 other_site_data = Normal w0
    /\ run [onSave (Types.Restaurant_value ichiran);
            onSave (Types.Restaurant_value gwangjang);
            onSelectMobile (Types.Restaurant_value ichiran)] w0 = Normal w
    /\ selectedRestaurant (state w) = Some (Types.Restaurant_value ichiran)
    /\ Types.Restaurant_value ichiran ∈ listed w.
Proof.
  eexists _, _. split; [reflexivity|]. split; [reflexivity|]. split; [reflexivity|].
  refine (selection_always_listed 400%float other_site_data
            [onSave (Types.Restaurant_value ichiran);
             onSave (Types.Restaurant_value gwangjang);
             onSelectMobile (Types.Restaurant_value ichiran)] _ _ eq_refl _ eq_refl).
  simpl. repeat split. apply elem_of_cons. right. apply elem_of_cons. by left.
Defined.

(** X12. An unreadable entry is overwritten at once: when the key is absent
    or holds text that is not JSON, the mount returns and leaves the JSON
    text [[]] under it, written by the single [setItem] call of the save
    effect, so the old text is gone from then on. *)
Theorem mount_resets_unreadable_entry (innerWidth : float) (ls : Storage) :
  getItem STORAGE_KEY ls = None
  \/ (exists s, getItem STORAGE_KEY ls = Some (PlainText s)) ->
  exists w,
    mount innerWidth ls = Normal w
    /\ localStorage w !! STORAGE_KEY = Some (JSONText (JsonArray []))
    /\ setItem_calls w = [(STORAGE_KEY, JSONText (JsonArray []))].
Proof.
  intros Hentry.
  assert (Hload : loadEffect ls = None).
  { unfold loadEffect. destruct Hentry as [-> | [s ->]]; [done|].
    simpl. by destruct (negb _). }
  rewrite AppProofs.mount_unfold, Hload. cbv zeta.
  eexists. split; [reflexivity|]. simpl. split; [|reflexivity].
  unfold setItem. by rewrite lookup_insert_eq.
Qed.

Lemma mount_resets_unreadable_entry_witness :
  exists w,
    mount 1280 corrupted = Normal w
    /\ localStorage w !! STORAGE_KEY = Some (JSONText (JsonArray [])).
Proof.
  destruct (mount_resets_unreadable_entry 1280%float corrupted
              (or_intror (ex_intro _ "[{'id':'7c9e" eq_refl)))
    as (w & Hmount & Hentry & _).
  exists w. by split.
Defined.

Lemma mount_takes_any_json_witness :
  exists message, mount 1280 object_stored = Throw (TypeError message).
Proof.
  apply (proj2 (mount_takes_any_json 1280%float object_stored
                  (JsonObject [("version", JsonNumber 2)]) eq_refl)).
  discriminate.
Defined.

End AppRunsProofs.

(* ===================================================================== *)
(** * Reloading again                                                     *)
(* ===================================================================== *)

Module ReloadProofs.
Import JS App AppRuns Samples.

(** ** Induction over nested values and texts *)

Lemma value_nested_ind (P : value -> Prop) :
  P Undefined -> P Null -> (forall b, P (Bool b)) -> (forall n, P (Num n)) ->
  (forall s, P (Str s)) ->
  (forall items, Forall P items -> P (Arr items)) ->
  (forall props, Forall (fun p => P p.2) props -> P (Obj props)) ->
  forall v, P v.
Proof.
  intros HU HN HB Hn HS HA HO. fix IH 1. intros [| |b|n|s|items|props].
  - exact HU.
  - exact HN.
  - apply HB.
  - apply Hn.
  - apply HS.
  - apply HA. induction items as [|x items IHitems]; constructor; [apply IH | exact IHitems].
  - apply HO. induction props as [|[k x] props IHprops]; constructor;
      [apply IH | exact IHprops].
Qed.

Lemma json_nested_ind (P : json -> Prop) :
  P JsonNull -> (forall b, P (JsonBool b)) -> (forall n, P (JsonNumber n)) ->
  (forall s, P (JsonString s)) ->
  (forall elements, Forall P elements -> P (JsonArray elements)) ->
  (forall members, Forall (fun m => P m.2) members -> P (JsonObject members)) ->
  forall j, P j.
Proof.
  intros HN HB Hn HS HA HO. fix IH 1. intros [|b|n|s|elements|members].
  - exact HN.
  - apply HB.
  - apply Hn.
  - apply HS.
  - apply HA. induction elements as [|x elements IHe]; constructor; [apply IH | exact IHe].
  - apply HO. induction members as [|[k x] members IHm]; constructor;
      [apply IH | exact IHm].
Qed.

(** ** What [JSON.stringify] writes *)

Lemma storable_normalized (n : float) :
  isFinite n = true ->
  storable_number (if PrimFloat.is_zero n then 0%float else n) = true.
Proof.
  intros Hfin. destruct (PrimFloat.is_zero n) eqn:Hz; [reflexivity|].
  unfold storable_number. by rewrite Hfin, Hz.
Qed.

Lemma stringified_serialize (v : value) :
  forall j, serialize v = Some j -> stringified j = true.
Proof.
  induction v as [| |b|n|s|items IH|props IH] using value_nested_ind;
    intros j; cbn [serialize]; try discriminate; intros [= <-]; try reflexivity.
  - destruct (isFinite n) eqn:Hfin; [|reflexivity].
    cbn [stringified]. by apply storable_normalized.
  - cbn [stringified]. induction IH as [|x items Hx _ IHitems]; [reflexivity|].
    cbn [map forallb]. rewrite IHitems, andb_true_r.
    destruct (serialize x) as [jx|] eqn:Hsx; [by apply Hx | reflexivity].
  - cbn [stringified]. induction IH as [|[k x] props Hx _ IHprops]; [reflexivity|].
    cbn [omap list_omap fst snd] in *.
    destruct (serialize x) as [jx|] eqn:Hsx; [|exact IHprops].
    cbn [forallb snd]. by rewrite (Hx jx eq_refl), IHprops.
Qed.

(** ** Property lists *)

Lemma obj_set_fresh (k : string) (v : value) (props : list (string * value)) :
  k ∉ keys props -> obj_set k v props = (props ++ [(k, v)])%list.
Proof.
  unfold keys. induction props as [|[k' v'] props IH]; intros Hk; [reflexivity|].
  cbn [obj_set app]. cbn in Hk. apply not_elem_of_cons in Hk as [Hne Hk].
  destruct (String.eqb_spec k' k) as [->|_]; [done|]. by rewrite IH.
Qed.

Lemma keys_obj_set (k : string) (v : value) (props : list (string * value)) :
  keys (obj_set k v props)
  = if decide (k ∈ keys props) then keys props else (keys props ++ [k])%list.
Proof.
  unfold keys. induction props as [|[k' v'] props IH]; [reflexivity|].
  cbn [obj_set]. destruct (String.eqb_spec k' k) as [->|Hne].
  - cbn. rewrite decide_True; [done | by left].
  - cbn. rewrite IH. destruct (decide (k ∈ props.*1)) as [Hin|Hin].
    + rewrite decide_True; [done | by right].
    + rewrite decide_False; [done|]. intros [?|?]%elem_of_cons; congruence.
Qed.

Lemma NoDup_keys_obj_set (k : string) (v : value) (props : list (string * value)) :
  NoDup (keys props) -> NoDup (keys (obj_set k v props)).
Proof.
  intros Hnd. rewrite keys_obj_set. case_decide as Hin; [done|].
  apply NoDup_app. repeat split; [done | | apply NoDup_singleton].
  intros x Hx ->%list_elem_of_singleton. done.
Qed.

Lemma Forall_obj_set (R : string * value -> Prop) (k : string) (v : value)
    (props : list (string * value)) :
  Forall R props -> R (k, v) -> Forall R (obj_set k v props).
Proof.
  intros Hall Hkv. induction Hall as [|[k' v'] props Hp Hprops IH]; cbn [obj_set].
  - by constructor.
  - destruct (String.eqb k' k); by constructor.
Qed.

(** Building an object from entries with pairwise distinct names gives
    the entries back. *)
Lemma fold_obj_set_distinct (props acc : list (string * value)) :
  NoDup (keys props) ->
  (forall k, k ∈ keys acc -> k ∉ keys props) ->
  fold_left (fun o p => obj_set p.1 p.2 o) props acc = (acc ++ props)%list.
Proof.
  revert acc. induction props as [|[k v] props IH]; intros acc Hnd Hdisj.
  - by rewrite app_nil_r.
  - unfold keys in *. cbn in Hnd. apply NoDup_cons in Hnd as [Hk Hnd].
    cbn [fold_left fst snd]. rewrite obj_set_fresh.
    + rewrite IH, <- app_assoc; [done | done |].
      intros k' Hk'. unfold keys in Hk'. rewrite fmap_app in Hk'.
      apply elem_of_app in Hk' as [Hk'| ->%list_elem_of_singleton]; [|done].
      apply Hdisj in Hk'. cbn in Hk'. by apply not_elem_of_cons in Hk' as [_ ?].
    + intros Hin. apply Hdisj in Hin. apply Hin. cbn. by left.
Qed.

Lemma fold_left_revive (members : list (string * json)) (acc : list (string * value)) :
  fold_left (fun props m => obj_set m.1 (revive m.2) props) members acc
  = fold_left (fun o p => obj_set p.1 p.2 o)
      (map (fun m => (m.1, revive m.2)) members) acc.
Proof.
  revert acc. induction members as [|m members IH]; intros acc; [reflexivity|].
  cbn. apply IH.
Qed.

(** ** One reload settles the data *)

(** A value is settled when writing it and reading it back returns it. *)
Lemma revive_settled (j : json) :
  stringified j = true ->
  exists j', serialize (revive j) = Some j' /\ revive j' = revive j.
Proof.
  induction j as [|b|n|s|elements IH|members IH] using json_nested_ind;
    cbn [stringified revive]; intros Hj.
  - by exists JsonNull.
  - by exists (JsonBool b).
  - exists (JsonNumber n). split; [|reflexivity].
    cbn [serialize]. by rewrite PersistenceProofs.storable_number_json.
  - by exists (JsonString s).
  - exists (JsonArray (map (fun x => default JsonNull (serialize x))
                           (map revive elements))).
    split; [reflexivity|]. cbn [revive]. f_equal.
    induction IH as [|x elements Hx _ IHelements]; [reflexivity|].
    cbn [forallb] in Hj. apply andb_prop in Hj as [Hjx Hj].
    cbn [map]. rewrite (IHelements Hj).
    destruct (Hx Hjx) as (jx & Hs & Hr). rewrite Hs. cbn [from_option id].
    by rewrite Hr.
  - set (props := fold_left (fun props m => obj_set m.1 (revive m.2) props) members []).
    assert (Hsettled :
              Forall (fun p => exists j', serialize p.2 = Some j' /\ revive j' = p.2) props
              /\ NoDup (keys props)).
    { unfold props. clear props.
      assert (Hgen : forall acc,
                 Forall (fun p => exists j', serialize p.2 = Some j' /\ revive j' = p.2) acc ->
                 NoDup (keys acc) ->
                 Forall (fun p => exists j', serialize p.2 = Some j' /\ revive j' = p.2)
                   (fold_left (fun props m => obj_set m.1 (revive m.2) props) members acc)
                 /\ NoDup (keys (fold_left (fun props m => obj_set m.1 (revive m.2) props)
                                   members acc))).
      { induction IH as [|[k x] members Hx _ IHmembers]; intros acc Hacc Hnd; [done|].
        cbn [forallb snd] in Hj. apply andb_prop in Hj as [Hjx Hj].
        cbn [fold_left fst snd]. apply (IHmembers Hj).
        - apply Forall_obj_set; [done|]. by apply Hx.
        - by apply NoDup_keys_obj_set. }
      apply Hgen; [constructor | apply NoDup_nil_2]. }
    destruct Hsettled as [Hall Hnd].
    assert (Hback : exists members',
               omap (fun p => match serialize p.2 with
                              | Some j => Some (p.1, j)
                              | None => None
                              end) props = members'
               /\ map (fun m => (m.1, revive m.2)) members' = props).
    { clear Hnd. induction Hall as [|[k x] props' (jx & Hs & Hr) _ (members' & Hm & Hp)].
      - by exists [].
      - exists ((k, jx) :: members'). cbn [omap list_omap fst snd] in *.
        rewrite Hs, Hm. split; [reflexivity|]. cbn. by rewrite Hr, Hp. }
    destruct Hback as (members' & Hm & Hp).
    exists (JsonObject members'). split.
    + cbn [serialize]. by rewrite Hm.
    + cbn [revive]. f_equal.
      transitivity (fold_left (fun o p => obj_set p.1 p.2 o)
                      (map (fun m => (m.1, revive m.2)) members') []).
      { apply fold_left_revive. }
      rewrite Hp. apply (fold_obj_set_distinct props []); [done|].
      intros k Hk. by apply elem_of_nil in Hk.
Qed.

(** What a mount that returns reads from a storage the save effect
    wrote. *)
Lemma load_saved (v : value) (innerWidth : float) (ls : Storage) (w : World) :
  ls !! STORAGE_KEY = Some (saved_text v) ->
  mount innerWidth ls = Normal w ->
  restaurants (state w)
  = match serialize v with
    | Some j => revive j
    | None => Arr []
    end.
Proof.
  intros Hls Hmount. rewrite (AppProofs.mount_restaurants _ _ _ Hmount).
  unfold loadEffect, getItem. rewrite Hls.
  unfold saved_text, JSON_stringify. by destruct (serialize v).
Qed.

Lemma mount_in_sync (innerWidth : float) (ls : Storage) (w : World) :
  mount innerWidth ls = Normal w ->
  localStorage w !! STORAGE_KEY = Some (saved_text (restaurants (state w))).
Proof. intros Hmount. by destruct (AppProofs.single_blob_mount _ _ _ Hmount). Qed.

(** X14. A second reload changes nothing: whatever the application holds
    after running, reloading the page twice leaves the same [restaurants]
    as reloading it once.  What JSON cannot carry is lost at the first
    reload, and nothing more at any later one. *)
Theorem reload_idempotent (innerWidth : float) (ls : Storage) (es : list event)
    (w w1 w2 : World) (innerWidth1 innerWidth2 : float) :
  launch innerWidth ls es = Normal w ->
  reload innerWidth1 w = Normal w1 ->
  reload innerWidth2 w1 = Normal w2 ->
  restaurants (state w2) = restaurants (state w1).
Proof.
  intros (w0 & Hmount & Hrun)%AppProofs.launch_Normal Hreload1 Hreload2.
  destruct (AppProofs.single_blob_run ls es _ w
              (AppProofs.single_blob_mount _ _ _ Hmount) Hrun) as [_ Hsync _].
  unfold reload in *.
  rewrite (load_saved _ innerWidth2 _ w2 (mount_in_sync _ _ _ Hreload1) Hreload2).
  rewrite (load_saved _ innerWidth1 _ w1 Hsync Hreload1).
  destruct (serialize (restaurants (state w))) as [j|] eqn:Hs; [|reflexivity].
  destruct (revive_settled j (stringified_serialize _ j Hs)) as (j' & -> & ->).
  reflexivity.
Qed.

Lemma reload_idempotent_witness :
  exists w w1 w2,
    launch 1280 other_site_data [onSave (Types.Restaurant_value off_the_map)] = Normal w
    /\ reload 1280 w = Normal w1
    /\ reload 1280 w1 = Normal w2
    /\ restaurants (state w1) <> restaurants (state w)
    /\ restaurants (state w2) = restaurants (state w1).
Proof.
  eexists _, _, _. split; [reflexivity|]. split; [reflexivity|]. split; [reflexivity|].
  split.
  - vm_compute. discriminate.
  - exact (reload_idempotent 1280%float other_site_data
             [onSave (Types.Restaurant_value off_the_map)] _ _ _ 1280%float 1280%float
             eq_refl eq_refl eq_refl).
Defined.

End ReloadProofs.

(* ===================================================================== *)
(** * From a screenshot to a saved record                                 *)
(* ===================================================================== *)

Module FlowProofs.
Import JS Runtime GeminiService Flow Samples.

(** ** The service, exactly *)

Lemma getProp_field (data : value) (k : string) :
  data <> Undefined -> data <> Null -> getProp data k = Normal (field data k).
Proof. intros Hu Hn. by destruct data. Qed.

Lemma revive_defined (doc : json) : revive doc <> Undefined.
Proof. by destruct doc. Qed.

Lemma analyzeImage_on_json (ai : GoogleGenAI) (base64Image : string) (doc : json)
    (sent : list GenerateContentParameters) :
  generateContent ai (request "gemini-2.5-flash" base64Image)
  = Normal (mkResponse (Some (JSONText doc))) ->
  analyzeImage ai base64Image sent
  = ((sent ++ [request "gemini-2.5-flash" base64Image])%list,
     match revive doc with
     | Null => Throw (Error failure_message)
     | data => Normal (record_of data)
     end).
Proof.
  intros Hanswer.
  unfold analyzeImage, try_catch, bind, await_generateContent, lift, throw, ret.
  rewrite Hanswer. simpl.
  assert (Hdef := revive_defined doc).
  by destruct (revive doc) eqn:Hdata.
Qed.

Lemma revive_Null (doc : json) : revive doc = Null <-> doc = JsonNull.
Proof. split; [by destruct doc | by intros ->]. Qed.

(** X1. The service accepts any JSON but [null], unchecked: a call succeeds
    exactly when the endpoint answers with a JSON text other than [null],
    and then it returns the seven-field record read off the parsed value,
    a field the response lacks (or a response that is no object at all)
    giving [undefined] rather than an error. *)
Theorem analyzeImage_succeeds_iff (ai : GoogleGenAI) (base64Image : string)
    (sent : list GenerateContentParameters) (result : value) :
  (analyzeImage ai base64Image sent).2 = Normal result
  <-> exists doc,
        generateContent ai (request "gemini-2.5-flash" base64Image)
        = Normal (mkResponse (Some (JSONText doc)))
        /\ doc <> JsonNull
        /\ result = record_of (revive doc).
Proof.
  split.
  - destruct (generateContent ai (request "gemini-2.5-flash" base64Image))
      as [[[[doc|s]|]]|e] eqn:Hanswer.
    + rewrite (analyzeImage_on_json ai base64Image doc sent Hanswer). simpl.
      intros Hres. exists doc. split; [reflexivity|].
      destruct (revive doc) eqn:Hdata; try discriminate;
        (split; [intros ->; discriminate | congruence]).
    + unfold analyzeImage, try_catch, bind, await_generateContent, lift, throw, ret.
      rewrite Hanswer. simpl. by destruct (negb _).
    + unfold analyzeImage, try_catch, bind, await_generateContent, lift, throw, ret.
      by rewrite Hanswer.
    + unfold analyzeImage, try_catch, bind, await_generateContent, lift, throw, ret.
      by rewrite Hanswer.
  - intros (doc & Hanswer & Hdoc & ->).
    rewrite (analyzeImage_on_json ai base64Image doc sent Hanswer). simpl.
    destruct (revive doc) eqn:Hdata; try reflexivity.
    by apply revive_Null in Hdata.
Qed.

Lemma analyzeImage_succeeds_iff_witness :
  (analyzeImage ai_ok "AAAA" []).2
  = Normal (record_of (Obj [ ("name", Str "Ichiran");
                             ("country", Str "Japan");
                             ("city", Str "Fukuoka");
                             ("district", Str "Hakata");
                             ("lat", Num 33.59);
                             ("lng", Num 130.4);
                             ("description", Str "Tonkotsu ramen in solo booths.");
                             ("tags", Arr [Str "Ramen"]) ]))
  /\ (analyzeImage ai_empty_object "AAAA" []).2
     = Normal (Obj [ ("name", Undefined); ("country", Undefined); ("city", Undefined);
                     ("district", Undefined); ("description", Undefined);
                     ("coordinates", Obj [ ("lat", Undefined); ("lng", Undefined) ]);
                     ("tags", Undefined) ]).
Proof.
  split.
  - apply (proj2 (analyzeImage_succeeds_iff ai_ok "AAAA" [] _)).
    eexists. split; [reflexivity|]. split; [discriminate | reflexivity].
  - apply (proj2 (analyzeImage_succeeds_iff ai_empty_object "AAAA" [] _)).
    exists (JsonObject []). split; [reflexivity|]. split; [discriminate | reflexivity].
Defined.

(** ** Data URLs *)

Lemma split_comma_free (s : string) :
  comma_free s -> split comma s = [s].
Proof.
  unfold comma_free. induction s as [|c s IH]; intros Hs; [reflexivity|].
  cbn in Hs. apply not_elem_of_cons in Hs as [Hc Hs].
  cbn [split]. destruct (Ascii.eqb_spec c comma) as [->|_]; [done|].
  by rewrite IH.
Qed.

Lemma split_data_url (header payload : string) :
  comma_free header ->
  split comma (data_url header payload) = header :: split comma payload.
Proof.
  unfold comma_free, data_url. induction header as [|c header IH]; intros Hh.
  - change ("" +:+ String comma payload) with (String comma payload).
    cbn [split]. by destruct (Ascii.eqb_spec comma comma).
  - cbn in Hh. apply not_elem_of_cons in Hh as [Hc Hh].
    change (String c header +:+ String comma payload)
      with (String c (header +:+ String comma payload)).
    cbn [split]. destruct (Ascii.eqb_spec c comma) as [->|_]; [done|].
    by rewrite IH.
Qed.

Lemma data_url_payload (header payload : string) :
  comma_free header -> comma_free payload ->
  split comma (data_url header payload) !! 1%nat = Some payload.
Proof.
  intros Hh Hp. by rewrite split_data_url, split_comma_free.
Qed.

Lemma data_url_nonempty (header payload : string) :
  String.eqb (data_url header payload) "" = false.
Proof. unfold data_url. by destruct header. Qed.

(** ** The modal on its own *)

(** X2. One run of [handleAnalyze], whatever the service does: either it
    saved (it called [onSave] once, then [onClose], and left the
    modal as it is when first opened), or it called nothing and kept the
    chosen file and its preview for another try.  Without a preview it
    does nothing at all and sends nothing; with one, the spinner is off
    again when it ends. *)
Theorem handleAnalyze_saves_or_keeps
    (analyzeImage : option string -> Call value) (uuidv4 : string) (now : float)
    (s : AddPlaceModal.State) (sent : list GenerateContentParameters) :
  let outcome := AddPlaceModal.handleAnalyze analyzeImage uuidv4 now s sent in
  let h := outcome.2 in
  ((exists restaurant,
       AddPlaceModal.emitted h = [App.onSave restaurant; App.onClose]
       /\ AddPlaceModal.after h = AddPlaceModal.initial
       /\ AddPlaceModal.unhandled h = None)
   \/ (AddPlaceModal.emitted h = []
       /\ AddPlaceModal.file (AddPlaceModal.after h) = AddPlaceModal.file s
       /\ AddPlaceModal.preview (AddPlaceModal.after h) = AddPlaceModal.preview s))
  /\ (AddPlaceModal.preview s = None \/ AddPlaceModal.preview s = Some "" ->
      outcome = (sent, AddPlaceModal.mkHandled s [] None))
  /\ (AddPlaceModal.preview s <> None -> AddPlaceModal.preview s <> Some "" ->
      AddPlaceModal.isAnalyzing (AddPlaceModal.after h) = false).
Proof.
  unfold AddPlaceModal.handleAnalyze.
  destruct (AddPlaceModal.preview s) as [p|] eqn:Hp; cycle 1.
  { simpl. split; [right; by rewrite Hp|]. split; [done|]. by intros []. }
  destruct (String.eqb_spec p "") as [->|Hne].
  { simpl. split; [right; by rewrite Hp|]. split; [done|]. by intros _ []. }
  unfold try_catch, bind, lift, ret.
  destruct (analyzeImage _ sent) as [sent' [result|err]]; simpl.
  - split; [left; by eexists|]. split; [|done].
    intros [Hn|Hs]; [discriminate | congruence].
  - destruct (message err) as [msg|e']; simpl.
    + split; [right; by rewrite Hp|]. split; [|done].
      intros [Hn|Hs]; [discriminate | congruence].
    + split; [right; by rewrite Hp|]. split; [|done].
      intros [Hn|Hs]; [discriminate | congruence].
Qed.

Lemma handleAnalyze_saves_or_keeps_witness :
  (exists restaurant,
      AddPlaceModal.emitted
        (AddPlaceModal.handleAnalyze (service ai_ok) "id-1" 1700000000000 previewing []).2
      = [App.onSave restaurant; App.onClose])
  /\ AddPlaceModal.emitted
       (AddPlaceModal.handleAnalyze (service ai_down) "id-1" 1700000000000 previewing []).2
     = [].
Proof.
  split.
  - destruct (proj1 (handleAnalyze_saves_or_keeps (service ai_ok) "id-1"
                       1700000000000%float previewing []))
      as [(restaurant & Hemitted & _)|(Hemitted & _)]; [by eexists | discriminate].
  - destruct (proj1 (handleAnalyze_saves_or_keeps (service ai_down) "id-1"
                       1700000000000%float previewing []))
      as [(restaurant & Hemitted & _)|(Hemitted & _)]; [discriminate | exact Hemitted].
Defined.

(** ** The modal, the service and the App together *)

Lemma newRestaurant_record_of (uuid : string) (data : value) (preview : string)
    (now : float) :
  AddPlaceModal.newRestaurant uuid (record_of data) preview now
  = saved_record uuid data preview now.
Proof. reflexivity. Qed.

Lemma handleAnalyze_on_json (ai : GoogleGenAI)
    (analyzeImage_ : option string -> Call value) (uuid : string) (now : float)
    (m : AddPlaceModal.State) (header payload : string) (doc : json)
    (sent : list GenerateContentParameters) :
  (forall base64Data, analyzeImage_ (Some base64Data) = analyzeImage ai base64Data) ->
  comma_free header -> comma_free payload ->
  AddPlaceModal.preview m = Some (data_url header payload) ->
  generateContent ai (request "gemini-2.5-flash" payload)
  = Normal (mkResponse (Some (JSONText doc))) ->
  doc <> JsonNull ->
  AddPlaceModal.handleAnalyze analyzeImage_ uuid now m sent
  = ((sent ++ [request "gemini-2.5-flash" payload])%list,
     AddPlaceModal.mkHandled AddPlaceModal.initial
       [ App.onSave (saved_record uuid (revive doc) (data_url header payload) now);
         App.onClose ]
       None).
Proof.
  intros Hagree Hheader Hpayload Hpreview Hanswer Hdoc.
  unfold AddPlaceModal.handleAnalyze.
  rewrite Hpreview, data_url_nonempty, (data_url_payload header payload) by done.
  unfold try_catch, bind, ret.
  rewrite Hagree, (analyzeImage_on_json ai payload doc sent Hanswer).
  destruct (revive doc) eqn:Hdata;
    try (by apply revive_Null in Hdata); reflexivity.
Qed.

(** What [App]'s body makes of the selected card of a saved record. *)
Lemma overlay_saved_record (uuid : string) (data : value) (preview : string)
    (now : float) :
  Rendering.overlay (Some (saved_record uuid data preview now))
  = match field data "tags" with
    | Arr _ => Normal tt
    | _ => Throw (TypeError "selectedRestaurant.tags.map is not a function")
    end.
Proof. unfold Rendering.overlay. simpl. by destruct (field data "tags"). Qed.

(** X3. A successful analysis ends in the list and in the storage: when the
    preview is a data URL and the endpoint answers its payload with a
    JSON text other than [null], [handleAnalyze] sends that one request,
    resets the modal and calls [onSave] with a record of ten fields (the
    new id, the seven fields of the response, the whole data URL as
    [originalImage], the current time) and then [onClose].  On an App
    whose list is [previous], whenever the App lives through the two
    calls they leave the record at the head of the list, selected, with
    the map tab in front, the modal closed, and the storage entry holding
    the new list; and it does not live through them when the response has
    no array under [tags]: the render of the selected card throws a
    TypeError. *)
Theorem analysis_saves_record (ai : GoogleGenAI)
    (analyzeImage_ : option string -> Call value) (uuid : string) (now : float)
    (m : AddPlaceModal.State) (header payload : string) (doc : json)
    (sent : list GenerateContentParameters) (w : App.World) (previous : list value) :
  (forall base64Data, analyzeImage_ (Some base64Data) = analyzeImage ai base64Data) ->
  comma_free header -> comma_free payload ->
  AddPlaceModal.preview m = Some (data_url header payload) ->
  generateContent ai (request "gemini-2.5-flash" payload)
  = Normal (mkResponse (Some (JSONText doc))) ->
  doc <> JsonNull ->
  App.restaurants (App.state w) = Arr previous ->
  let restaurant := saved_record uuid (revive doc) (data_url header payload) now in
  AddPlaceModal.handleAnalyze analyzeImage_ uuid now m sent
  = ((sent ++ [request "gemini-2.5-flash" payload])%list,
     AddPlaceModal.mkHandled AddPlaceModal.initial
       [App.onSave restaurant; App.onClose] None)
  /\ (forall w',
        App.run [App.onSave restaurant; App.onClose] w = Normal w' ->
        App.restaurants (App.state w') = Arr (restaurant :: previous)
        /\ App.selectedRestaurant (App.state w') = Some restaurant
        /\ App.mobileTab (App.state w') = App.tab_map
        /\ App.isModalOpen (App.state w') = false
        /\ App.localStorage w' !! App.STORAGE_KEY
           = Some (App.saved_text (Arr (restaurant :: previous))))
  /\ ((forall items, field (revive doc) "tags" <> Arr items) ->
      exists message,
        App.run [App.onSave restaurant; App.onClose] w = Throw (TypeError message)).
Proof.
  intros Hagree Hheader Hpayload Hpreview Hanswer Hdoc Hw restaurant.
  split; [by eapply handleAnalyze_on_json|]. split.
  - intros w'. cbn [App.run].
    destruct (App.step (App.onSave restaurant) w) as [w1|err] eqn:Hsave; [|discriminate].
    destruct (App.step App.onClose w1) as [w2|err] eqn:Hclose; [|discriminate].
    intros [= <-].
    apply AppProofs.step_onSave in Hsave as (items & s' & Hspread & -> & _ & ->).
    rewrite Hw in Hspread. injection Hspread as <-.
    simpl in Hclose. apply AppProofs.commit_Normal in Hclose as [_ ->].
    cbn. repeat split. unfold App.setItem. by rewrite lookup_insert_eq.
  - intros Htags. cbn [App.run App.step].
    unfold App.handleSaveRestaurant, App.prepend. rewrite Hw. cbn [spread].
    unfold App.commit, App.render, Rendering.App.
    cbn [App.selectedRestaurant App.setMobileTab App.setSelectedRestaurant].
    unfold restaurant. rewrite overlay_saved_record.
    destruct (field (revive doc) "tags") as [| |b|n|s|items|props]; simpl; eauto.
    by destruct (Htags items).
Qed.

Lemma analysis_saves_record_witness :
  exists w',
    App.run (AddPlaceModal.emitted
               (AddPlaceModal.handleAnalyze (service ai_ok) "id-1" 1700000000000
                  previewing []).2)
      (App.holding (Arr []) other_site_data) = Normal w'
    /\ App.restaurants (App.state w')
       = Arr [ saved_record "id-1"
                 (revive ichiran_response)
                 (data_url "data:image/png;base64" "iVBORw0KGgo") 1700000000000 ].
Proof.
  destruct (analysis_saves_record ai_ok (service ai_ok) "id-1" 1700000000000%float
              previewing "data:image/png;base64" "iVBORw0KGgo" ichiran_response
              [] (App.holding (Arr []) other_site_data) [])
    as (Hmodal & Hrun & _); try done.
  - unfold comma_free. vm_compute. intros H.
    by repeat (apply elem_of_cons in H as [?|H]; [done|]); apply elem_of_nil in H.
  - unfold comma_free. vm_compute. intros H.
    by repeat (apply elem_of_cons in H as [?|H]; [done|]); apply elem_of_nil in H.
  - eexists. rewrite Hmodal. split; [reflexivity|].
    exact (proj1 (Hrun _ eq_refl)).
Defined.

(** X4. A failed analysis changes nothing but the message: when the service
    throws, for whatever reason, [handleAnalyze] has sent its one request,
    calls neither [onSave] nor [onClose] (so the list, the selection and
    the storage of the App stay as they are), keeps the file and the
    preview for another try, turns the spinner off and shows the fixed
    message of the service. *)
Theorem failed_analysis_keeps_everything (ai : GoogleGenAI)
    (analyzeImage_ : option string -> Call value) (uuid : string) (now : float)
    (m : AddPlaceModal.State) (header payload : string) (e : thrown)
    (sent : list GenerateContentParameters) :
  (forall base64Data, analyzeImage_ (Some base64Data) = analyzeImage ai base64Data) ->
  comma_free header -> comma_free payload ->
  AddPlaceModal.preview m = Some (data_url header payload) ->
  (analyzeImage ai payload sent).2 = Throw e ->
  AddPlaceModal.handleAnalyze analyzeImage_ uuid now m sent
  = ((sent ++ [request "gemini-2.5-flash" payload])%list,
     AddPlaceModal.mkHandled
       (AddPlaceModal.mkState (AddPlaceModal.file m) (Some (data_url header payload))
          false (Str "Failed to analyze image. Please try a clearer screenshot."))
       [] None)
  /\ forall w : App.World,
      App.run (AddPlaceModal.emitted
                 (AddPlaceModal.handleAnalyze analyzeImage_ uuid now m sent).2) w
      = Normal w.
Proof.
  intros Hagree Hheader Hpayload Hpreview Hthrow.
  assert (Hcall : analyzeImage ai payload sent
                  = ((sent ++ [request "gemini-2.5-flash" payload])%list,
                     Throw (Error failure_message))).
  { rewrite (surjective_pairing (analyzeImage ai payload sent)).
    rewrite GeminiServiceProofs.analyzeImage_sent, Hthrow.
    by rewrite (GeminiServiceProofs.analyzeImage_throws_only_failure _ _ _ _ Hthrow). }
  assert (Hrun : AddPlaceModal.handleAnalyze analyzeImage_ uuid now m sent
                 = ((sent ++ [request "gemini-2.5-flash" payload])%list,
                    AddPlaceModal.mkHandled
                      (AddPlaceModal.mkState (AddPlaceModal.file m)
                         (Some (data_url header payload)) false
                         (Str "Failed to analyze image. Please try a clearer screenshot."))
                      [] None)).
  { unfold AddPlaceModal.handleAnalyze.
    rewrite Hpreview, data_url_nonempty, (data_url_payload header payload) by done.
    unfold try_catch, bind, ret, lift. rewrite Hagree, Hcall. cbn.
    unfold AddPlaceModal.setIsAnalyzing, AddPlaceModal.setError. cbn.
    by rewrite Hpreview. }
  split; [exact Hrun|]. intros w. by rewrite Hrun.
Qed.

Lemma failed_analysis_keeps_everything_witness :
  AddPlaceModal.handleAnalyze (service ai_prose) "id-1" 1700000000000 previewing []
  = ([request "gemini-2.5-flash" "iVBORw0KGgo"],
     AddPlaceModal.mkHandled
       (AddPlaceModal.mkState (Some (AddPlaceModal.mkFile "reel.png"))
          (Some (data_url "data:image/png;base64" "iVBORw0KGgo")) false
          (Str "Failed to analyze image. Please try a clearer screenshot."))
       [] None).
Proof.
  refine (proj1 (failed_analysis_keeps_everything ai_prose (service ai_prose) "id-1"
                   1700000000000%float previewing "data:image/png;base64" "iVBORw0KGgo"
                   (Error failure_message) [] _ _ _ _ _)); try done.
  - unfold comma_free. vm_compute. intros H.
    by repeat (apply elem_of_cons in H as [?|H]; [done|]); apply elem_of_nil in H.
  - unfold comma_free. vm_compute. intros H.
    by repeat (apply elem_of_cons in H as [?|H]; [done|]); apply elem_of_nil in H.
Defined.

(** ** A well-typed response, through a reload *)

(** X5. The whole path of a record: when the fields of the response have the
    types the schema asks for, with finite coordinates, the record that
    [handleAnalyze] saves is the well-typed [Restaurant] made of the new
    id, the response's fields, the data URL and the time; and when its
    city and the cities already listed are names the list view can group,
    the App takes it in, the page reloads, and the list is then that
    restaurant followed by the restaurants that were there, unchanged. *)
Theorem typed_response_survives_reload (ai : GoogleGenAI)
    (analyzeImage_ : option string -> Call value) (m : AddPlaceModal.State)
    (header payload : string) (doc : json) (sent : list GenerateContentParameters)
    (w : App.World) (rs : list Types.Restaurant) (r : Types.Restaurant)
    (innerWidth : float) :
  (forall base64Data, analyzeImage_ (Some base64Data) = analyzeImage ai base64Data) ->
  comma_free header -> comma_free payload ->
  AddPlaceModal.preview m = Some (data_url header payload) ->
  generateContent ai (request "gemini-2.5-flash" payload)
  = Normal (mkResponse (Some (JSONText doc))) ->
  field (revive doc) "name" = Str (Types.name r) ->
  field (revive doc) "country" = Str (Types.Country_value (Types.country r)) ->
  field (revive doc) "city" = Str (Types.city r) ->
  field (revive doc) "district" = Str (Types.district r) ->
  field (revive doc) "description" = Str (Types.description r) ->
  field (revive doc) "lat" = Num (Types.lat (Types.coordinates r)) ->
  field (revive doc) "lng" = Num (Types.lng (Types.coordinates r)) ->
  field (revive doc) "tags" = Arr (map Str (Types.tags r)) ->
  Types.originalImage r = data_url header payload ->
  Forall (fun r => Types.storable r = true) (r :: rs) ->
  Forall (fun r => inherited (Types.city r) = false) (r :: rs) ->
  App.restaurants (App.state w) = Types.Restaurants_value rs ->
  (AddPlaceModal.handleAnalyze analyzeImage_ (Types.id r) (Types.createdAt r) m sent).2
  = AddPlaceModal.mkHandled AddPlaceModal.initial
      [App.onSave (Types.Restaurant_value r); App.onClose] None
  /\ exists w' reloaded,
      App.run [App.onSave (Types.Restaurant_value r); App.onClose] w = Normal w'
      /\ AppRuns.reload innerWidth w' = Normal reloaded
      /\ App.restaurants (App.state reloaded) = Types.Restaurants_value (r :: rs).
Proof.
  intros Hagree Hheader Hpayload Hpreview Hanswer
    Hname Hcountry Hcity Hdistrict Hdescription Hlat Hlng Htags Himage Hstorable
    Hcities Hw.
  assert (Hdoc : doc <> JsonNull).
  { intros ->. discriminate Hname. }
  assert (Hrecord : saved_record (Types.id r) (revive doc) (data_url header payload)
                      (Types.createdAt r)
                    = Types.Restaurant_value r).
  { unfold saved_record, Types.Restaurant_value, Types.Coordinates_value.
    by rewrite Hname, Hcountry, Hcity, Hdistrict, Hdescription, Hlat, Hlng, Htags, Himage. }
  split.
  { rewrite (handleAnalyze_on_json ai analyzeImage_ _ _ m header payload doc sent) by done.
    cbn [snd]. by rewrite Hrecord. }
  set (s1 := App.setMobileTab App.tab_map
               (App.setSelectedRestaurant (Some (Types.Restaurant_value r))
                  (App.setRestaurants (Types.Restaurants_value (r :: rs)) (App.state w)))).
  set (w1 := App.saveEffect (App.with_state w s1)).
  set (w2 := App.with_state w1 (App.setIsModalOpen false (App.state w1))).
  assert (Hrender : forall s, App.restaurants s = Types.Restaurants_value (r :: rs) ->
                              App.selectedRestaurant s = Some (Types.Restaurant_value r) ->
                              App.render s = Normal tt).
  { intros s Hs Hsel. apply (RenderingProofs.render_typed s (r :: rs)); eauto. }
  assert (Hrun : App.run [App.onSave (Types.Restaurant_value r); App.onClose] w
                 = Normal w2).
  { cbn [App.run App.step]. unfold App.handleSaveRestaurant, App.prepend.
    rewrite Hw. cbn [spread Types.Restaurants_value].
    unfold App.commit.
    change (Arr (Types.Restaurant_value r :: map Types.Restaurant_value rs))
      with (Types.Restaurants_value (r :: rs)).
    fold s1. rewrite (Hrender s1) by reflexivity.
    fold w1. by rewrite (Hrender (App.setIsModalOpen false (App.state w1))). }
  assert (Hentry : App.localStorage w2 !! App.STORAGE_KEY
                   = Some (App.saved_text (Types.Restaurants_value (r :: rs)))).
  { exact (PersistenceProofs.saved_entry _ (App.with_state w s1) eq_refl). }
  eexists w2, _. split; [exact Hrun|]. unfold AppRuns.reload.
  rewrite (PersistenceProofs.mount_typed (r :: rs) innerWidth _ Hstorable Hentry).
  rewrite (RenderingProofs.RestaurantList_typed (r :: rs) Hcities).
  split; reflexivity.
Qed.

Lemma typed_response_survives_reload_witness :
  exists w' reloaded,
    App.run [App.onSave (Types.Restaurant_value fresh_ichiran); App.onClose]
      (App.holding (Arr []) other_site_data) = Normal w'
    /\ AppRuns.reload 1280 w' = Normal reloaded
    /\ App.restaurants (App.state reloaded) = Types.Restaurants_value [fresh_ichiran].
Proof.
  refine (proj2 (typed_response_survives_reload ai_ok (service ai_ok) previewing
                   "data:image/png;base64" "iVBORw0KGgo" ichiran_response []
                   (App.holding (Arr []) other_site_data) [] fresh_ichiran 1280%float
                   _ _ _ _ _ _ _ _ _ _ _ _ _ _ _ _ _)); try done.
  - unfold comma_free. vm_compute. intros H.
    by repeat (apply elem_of_cons in H as [?|H]; [done|]); apply elem_of_nil in H.
  - unfold comma_free. vm_compute. intros H.
    by repeat (apply elem_of_cons in H as [?|H]; [done|]); apply elem_of_nil in H.
  - by repeat constructor.
  - by repeat constructor.
Defined.

End FlowProofs.

(* ===================================================================== *)
(** * Properties of the rendered list                                     *)
(* ===================================================================== *)

Module RestaurantListViewProofs.
Import Types RestaurantList RestaurantListView Samples.

(** ** Entries of a map whose key is written *)

Section Entries.
Context {A B : Type} (f : A -> list B).

Lemma entries_insert_new (m : gmap string A) (k : string) (v : A) :
  m !! k = None ->
  flat_map (fun kv => f kv.2) (entries (<[k := v]> m))
  ≡ₚ (f v ++ flat_map (fun kv => f kv.2) (entries m))%list.
Proof.
  intros Hk. unfold entries.
  rewrite (Permutation_flat_map _ (map_to_list_insert m k v Hk)). reflexivity.
Qed.

Lemma entries_insert_over (m : gmap string A) (k : string) (v : A) :
  m !! k = Some v ->
  exists rest,
    flat_map (fun kv => f kv.2) (entries m) ≡ₚ (f v ++ rest)%list
    /\ forall v', flat_map (fun kv => f kv.2) (entries (<[k := v']> m))
                  ≡ₚ (f v' ++ rest)%list.
Proof.
  intros Hk. unfold entries.
  exists (flat_map (fun kv => f kv.2) (map_to_list (delete k m))). split.
  - rewrite <- (Permutation_flat_map _ (map_to_list_delete m k v Hk)). reflexivity.
  - intros v'. rewrite <- (insert_delete_eq m k v').
    rewrite (Permutation_flat_map _
               (map_to_list_insert (delete k m) k v' (lookup_delete_eq m k))).
    reflexivity.
Qed.

End Entries.

(** ** One round of the loop, in closed form *)

Lemma add_built (g : Grouped) (r : Restaurant) :
  JS.inherited (city r) = false ->
  add g r
  = built (<[Country_value (country r) :=
               <[city r := (bucket g (Country_value (country r)) (city r) ++ [r])%list]>
                 (default ∅ (g !! Country_value (country r)))]> g).
Proof.
  intros Hcity. unfold add, ensure, bucket.
  rewrite RestaurantListProofs.Country_value_own, Hcity.
  destruct (g !! Country_value (country r)) as [cities|] eqn:Hg; simpl.
  - destruct (cities !! city r) as [spots|] eqn:Hspots; simpl; [reflexivity|].
    by rewrite insert_insert_eq.
  - rewrite lookup_empty. simpl. by rewrite !insert_insert_eq.
Qed.

Lemma spots_in_insert (cities : Cities) (r : Restaurant) :
  spots_in (<[city r := (default [] (cities !! city r) ++ [r])%list]> cities)
  ≡ₚ r :: spots_in cities.
Proof.
  unfold spots_in.
  destruct (cities !! city r) as [spots|] eqn:Hspots; simpl.
  - destruct (entries_insert_over (fun x : list Restaurant => x) cities (city r) spots Hspots)
      as (rest & Hold & Hnew).
    rewrite (Hnew (spots ++ [r])%list), Hold.
    rewrite <- app_assoc. cbn [app]. symmetry. apply Permutation_middle.
  - by rewrite (entries_insert_new (fun x : list Restaurant => x) cities (city r) [r] Hspots).
Qed.

Lemma spots_of_add (g g' : Grouped) (r : Restaurant) :
  JS.inherited (city r) = false -> add g r = built g' ->
  spots_of g' ≡ₚ r :: spots_of g.
Proof.
  intros Hcity. rewrite (add_built g r Hcity). intros [= <-].
  unfold spots_of, bucket.
  destruct (g !! Country_value (country r)) as [cities|] eqn:Hg; simpl.
  - destruct (entries_insert_over spots_in g _ cities Hg) as (rest & Hold & Hnew).
    by rewrite Hnew, Hold, spots_in_insert.
  - rewrite (entries_insert_new spots_in g _ _ Hg).
    assert (Hone := spots_in_insert ∅ r). rewrite lookup_empty in Hone.
    simpl in Hone. rewrite Hone.
    unfold spots_in, entries. by rewrite map_to_list_empty.
Qed.

Lemma spots_of_forEach (restaurants : list Restaurant) (g g' : Grouped) :
  Forall (fun r => JS.inherited (city r) = false) restaurants ->
  forEach restaurants g = built g' ->
  spots_of g' ≡ₚ (spots_of g ++ restaurants)%list.
Proof.
  intros Hall. revert g. induction Hall as [|r rest Hr _ IH]; intros g; simpl.
  - intros [= <-]. by rewrite app_nil_r.
  - destruct (add g r) as [g1| |] eqn:Hadd; try discriminate.
    intros Hrest. rewrite (IH g1 Hrest), (spots_of_add g g1 r Hr Hadd).
    by rewrite <- Permutation_middle.
Qed.

Lemma no_empty_group_add (g g' : Grouped) (r : Restaurant) :
  JS.inherited (city r) = false -> no_empty_group g -> add g r = built g' ->
  no_empty_group g'.
Proof.
  intros Hcity Hg. rewrite (add_built g r Hcity). intros [= <-].
  intros country0 cities0. rewrite lookup_insert. case_decide as Hc.
  - intros [= <-]. split.
    + apply insert_non_empty.
    + intros city0 spots. rewrite lookup_insert. case_decide as Hcy.
      * intros [= <-]. by destruct (bucket _ _ _).
      * destruct (g !! Country_value (country r)) as [cities|] eqn:Hgc; simpl.
        -- by apply (Hg _ _ Hgc).
        -- by rewrite lookup_empty.
  - apply Hg.
Qed.

Lemma no_empty_group_forEach (restaurants : list Restaurant) (g g' : Grouped) :
  Forall (fun r => JS.inherited (city r) = false) restaurants ->
  no_empty_group g -> forEach restaurants g = built g' -> no_empty_group g'.
Proof.
  intros Hall. revert g. induction Hall as [|r rest Hr _ IH]; intros g Hg; simpl.
  - by intros [= <-].
  - destruct (add g r) as [g1| |] eqn:Hadd; try discriminate.
    apply IH. by eapply no_empty_group_add.
Qed.

(** ** The view *)

Lemma cards_view_of (g : Grouped) (restaurants : list Restaurant)
    (selectedId : option string) :
  restaurants <> [] ->
  cards (view_of g restaurants selectedId) = map (card selectedId) (spots_of g).
Proof.
  intros Hne. unfold view_of.
  destruct restaurants as [|r rest]; [done|]. cbn [length Nat.eqb cards].
  unfold spots_of, spots_in.
  induction (entries g) as [|[country0 cities] es IH]; [reflexivity|].
  cbn [map flat_map fst snd]. rewrite map_app, IH. f_equal.
  induction (entries cities) as [|[city0 spots] cs IHc]; [reflexivity|].
  cbn [map flat_map fst snd]. by rewrite map_app, IHc.
Qed.

(** X6. Every saved spot has exactly one card: for a list none of whose
    cities bears an inherited name, the cards of the rendered view are the
    cards of the restaurants, each as often as it is in the list, in some
    order of the sections; and the placeholder is shown exactly when the
    list is empty. *)
Theorem every_spot_has_one_card (restaurants : list Restaurant)
    (selectedId : option string) :
  Forall (fun r => JS.inherited (city r) = false) restaurants ->
  exists g,
    grouped restaurants = built g
    /\ cards (view_of g restaurants selectedId) ≡ₚ map (card selectedId) restaurants
    /\ (view_of g restaurants selectedId = EmptyState <-> restaurants = []).
Proof.
  intros Hall.
  destruct (RestaurantListProofs.grouped_partitions restaurants Hall) as (g & Hg & _).
  exists g. split; [exact Hg|]. split.
  - destruct restaurants as [|r rest]; [reflexivity|].
    rewrite cards_view_of by done.
    apply Permutation_map.
    rewrite (spots_of_forEach (r :: rest) ∅ g Hall Hg).
    unfold spots_of, entries. by rewrite map_to_list_empty.
  - unfold view_of. by destruct restaurants.
Qed.

Lemma every_spot_has_one_card_witness :
  exists g,
    grouped [ichiran; gwangjang; ichiran] = built g
    /\ cards (view_of g [ichiran; gwangjang; ichiran] (Some (id gwangjang)))
       ≡ₚ [ card (Some (id gwangjang)) ichiran;
            card (Some (id gwangjang)) gwangjang;
            card (Some (id gwangjang)) ichiran ].
Proof.
  destruct (every_spot_has_one_card [ichiran; gwangjang; ichiran] (Some (id gwangjang)))
    as (g & Hg & Hcards & _); [by repeat constructor|].
  exists g. split; [exact Hg | exact Hcards].
Defined.

(** X7. The sections are the buckets that have something in them: each
    country is a heading once, each of its cities a heading once below
    it, every section has a city and every city a card, and the cards
    under a city are those of the restaurants with that country and city,
    in the order of the list. *)
Theorem sections_are_nonempty_buckets (restaurants : list Restaurant)
    (selectedId : option string) (g : Grouped)
    (countries : list (string * list (string * list Card))) :
  Forall (fun r => JS.inherited (city r) = false) restaurants ->
  grouped restaurants = built g ->
  view_of g restaurants selectedId = Sections countries ->
  NoDup countries.*1
  /\ forall country groups,
      (country, groups) ∈ countries ->
      groups <> [] /\ NoDup groups.*1
      /\ forall city shown,
          (city, shown) ∈ groups ->
          shown <> []
          /\ shown = map (card selectedId)
                       (List.filter (belongs country city) restaurants).
Proof.
  intros Hall Hg Hview.
  destruct (RestaurantListProofs.grouped_partitions restaurants Hall) as (g' & Hg' & Hb).
  rewrite Hg in Hg'. injection Hg' as <-.
  assert (Hfull : no_empty_group g).
  { apply (no_empty_group_forEach restaurants ∅ g Hall); [|exact Hg].
    intros country0 cities0. by rewrite lookup_empty. }
  unfold view_of in Hview. destruct (Nat.eqb _ _); [discriminate|].
  injection Hview as <-. split.
  { rewrite <- list_fmap_compose. unfold entries.
    apply (NoDup_fst_map_to_list g). }
  intros country0 groups Hin.
  apply list_elem_of_fmap in Hin as ([country1 cities] & [= -> ->] & Hin).
  apply elem_of_map_to_list in Hin. cbn [fst snd].
  destruct (Hfull _ _ Hin) as [Hcities Hspots].
  split; [|split].
  - intros Hnil. apply fmap_nil_inv in Hnil.
    by apply map_to_list_empty_iff in Hnil.
  - rewrite <- list_fmap_compose. apply (NoDup_fst_map_to_list cities).
  - intros city0 shown Hshown.
    apply list_elem_of_fmap in Hshown as ([city1 spots] & [= -> ->] & Hshown).
    apply elem_of_map_to_list in Hshown. cbn [fst snd].
    split.
    + intros Hnil. apply fmap_nil_inv in Hnil. by apply (Hspots _ _ Hshown).
    + f_equal. rewrite <- Hb. unfold bucket. rewrite Hin. simpl. by rewrite Hshown.
Qed.

Lemma sections_are_nonempty_buckets_witness :
  exists g countries,
    grouped [ichiran; gwangjang; ichiran] = built g
    /\ view_of g [ichiran; gwangjang; ichiran] None = Sections countries
    /\ NoDup countries.*1
    /\ forall shown, ("Japan", [("Fukuoka", shown)]) ∈ countries ->
                     shown = [card None ichiran; card None ichiran].
Proof.
  destruct (RestaurantListProofs.grouped_partitions [ichiran; gwangjang; ichiran])
    as (g & Hg & _); [by repeat constructor|].
  exists g. eexists. split; [exact Hg|]. split; [reflexivity|].
  destruct (sections_are_nonempty_buckets [ichiran; gwangjang; ichiran] None g _
              ltac:(by repeat constructor) Hg eq_refl) as [Hnodup Hsections].
  split; [exact Hnodup|]. intros shown Hin.
  destruct (Hsections _ _ Hin) as (_ & _ & Hshown).
  destruct (Hshown "Fukuoka" shown) as [_ ->]; [by left | reflexivity].
Defined.

(** ** The grouping that throws *)

(** X8. One unlucky city name takes the whole list down: if any restaurant
    of the list, wherever it stands, has a city that bears the name of a
    member of [Object.prototype], the grouping throws the TypeError and
    produces no object at all, also for the restaurants before it. *)
Theorem inherited_city_breaks_grouping (restaurants : list Restaurant) :
  Exists (fun r => JS.inherited (city r) = true) restaurants ->
  grouped restaurants
  = threw (JS.TypeError "g[r.country][r.city].push is not a function").
Proof. apply RestaurantListProofs.grouped_inherited_city. Qed.

Lemma inherited_city_breaks_grouping_witness :
  grouped [ichiran; gwangjang; tostring_tavern; ichiran]
  = threw (JS.TypeError "g[r.country][r.city].push is not a function").
Proof.
  apply (inherited_city_breaks_grouping [ichiran; gwangjang; tostring_tavern; ichiran]).
  do 2 apply Exists_cons_tl. by apply Exists_cons_hd.
Defined.

End RestaurantListViewProofs.

(* ===================================================================== *)
(** * Properties of the semantic zoom                                     *)
(* ===================================================================== *)

Module ZoomProofs.
Import Zoom.
Local Open Scope float_scope.

(** ** The order of doubles *)

Lemma SFltb_trans (x y z : SpecFloat.spec_float) :
  SpecFloat.SFltb x y = true -> SpecFloat.SFltb y z = true ->
  SpecFloat.SFltb x z = true.
Proof.
  unfold SpecFloat.SFltb.
  destruct x as [[]|[]| |[] mx ex], y as [[]|[]| |[] my ey], z as [[]|[]| |[] mz ez];
    simpl; try discriminate; try reflexivity;
    change (Pos.compare_cont Eq) with Pos.compare;
    destruct (Z.compare_spec ex ey), (Z.compare_spec ey ez), (Z.compare_spec ex ez);
    subst; try lia; try discriminate; try reflexivity;
    repeat match goal with
    | |- context [Pos.compare ?a ?b] => destruct (Pos.compare_spec a b)
    end; simpl; subst; try lia; try discriminate; try reflexivity.
Qed.

Lemma ltb_trans (a b c : float) :
  (a <? b) = true -> (b <? c) = true -> (a <? c) = true.
Proof. rewrite !FloatAxioms.ltb_spec. apply SFltb_trans. Qed.

Lemma ltb_irrefl (a : float) : (a <? a) = false.
Proof.
  rewrite FloatAxioms.ltb_spec. unfold SpecFloat.SFltb.
  destruct (FloatOps.Prim2SF a) as [[]|[]| |[] m e]; simpl; try reflexivity;
    rewrite Z.compare_refl; change (Pos.compare_cont Eq) with Pos.compare;
    by rewrite Pos.compare_refl.
Qed.

Lemma ltb_asym (a b : float) : (a <? b) = true -> (b <? a) = false.
Proof.
  intros Hab. destruct (b <? a) eqn:Hba; [|reflexivity].
  by rewrite <- (ltb_irrefl a), (ltb_trans a b a Hab Hba).
Qed.

Lemma above (low high k : float) :
  (low <? high) = true -> (high <? k) = true -> (low <? k) = true.
Proof. apply ltb_trans. Qed.

(** X15. The labels come in levels: at every zoom factor, district labels are
    displayed only when restaurant names are fully opaque, and restaurant
    names are opaque only when the city names are shown (at opacity 1, or
    0.5 beyond factor 12); and as long as the country labels are at their
    full opacity, below factor 4, neither restaurant names nor district
    labels are shown. *)
Theorem zoom_labels_nest (k : float) :
  (districtLabelDisplay k = "block" ->
   districtLabelOpacity k = 0.8 /\ placeLabelOpacity k = 1)
  /\ (placeLabelOpacity k = 1 -> cityRefOpacity k = 1 \/ cityRefOpacity k = 0.5)
  /\ ((k <? 4) = true ->
      countryLabelOpacity k = 1
      /\ placeLabelOpacity k = 0
      /\ districtLabelOpacity k = 0
      /\ districtLabelDisplay k = "none").
Proof.
  assert (H10 : (10 <? k) = true -> (4 <? k) = true) by (by apply above).
  assert (H4 : (4 <? k) = true -> (3 <? k) = true) by (by apply above).
  unfold districtLabelDisplay, districtLabelOpacity, placeLabelOpacity,
    cityRefOpacity, countryLabelOpacity.
  split; [|split].
  - destruct (10 <? k) eqn:Hk; [|discriminate]. by rewrite H10.
  - destruct (4 <? k) eqn:Hk.
    + rewrite H4 by done. destruct (12 <? k); auto.
    + intros Hzero. exfalso.
      apply (f_equal PrimFloat.is_zero) in Hzero. discriminate Hzero.
  - intros Hlow. rewrite Hlow.
    assert (H4k : (4 <? k) = false) by (by apply ltb_asym).
    rewrite H4k.
    destruct (10 <? k) eqn:Hk; [|done].
    by rewrite H10 in H4k.
Qed.

Lemma zoom_labels_nest_witness :
  placeLabelOpacity 14 = 1
  /\ countryLabelOpacity 1 = 1 /\ districtLabelDisplay 1 = "none".
Proof.
  split.
  - exact (proj2 (proj1 (zoom_labels_nest 14) eq_refl)).
  - destruct (proj2 (proj2 (zoom_labels_nest 1)) eq_refl) as (Hc & _ & _ & Hd).
    split; [exact Hc | exact Hd].
Defined.

End ZoomProofs.
